(** * FuelMap: injector pulse width from a 2D interpolated fuel map

    A shallow embedding of [FuelMap.cpp]: the axis locator [lowerIndex], the
    linear interpolator [lerp], the table lookup [targetAFR], the two
    correction stages, [getFinalAFR], the [Injector] and
    [FuelController::computePulseWidth].

    C++ [int] is modelled as [Z]: the two subtractions of [targetAFR] work
    on caller-supplied values, and their signed overflow is undefined
    behaviour, modelled as such; the index arithmetic ([size - 1], [i + 1],
    [loadIndex * RPM_POINTS + rpmIndex]) stays within a few units of the
    table dimensions. C arrays reached through raw pointers are lists whose
    out-of-range reads are undefined behaviour. [double] is a type class of
    arithmetic with two instances: exact rational arithmetic ([Q], where
    only the quotient by zero departs from the reals) and IEEE-754 binary64
    (the kernel's primitive floats, with infinities and NaN). *)

From Stdlib Require Import String ZArith QArith List Bool Lia Lqa.
From Stdlib Require Import Floats Uint63.
Import ListNotations.

Local Open Scope Z_scope.

(** ** Outcomes of a C++ call *)

(** The only exception thrown in the source is [std::invalid_argument]. *)
Inductive exn : Type :=
| invalid_argument (what : string).

(** A call returns a value, throws, or has undefined behaviour (an array
    read out of bounds, a signed overflow). *)
Inductive result (A : Type) : Type :=
| Ok (a : A)
| Throw (e : exn)
| Undefined.

Arguments Ok {A} a.
Arguments Throw {A} e.
Arguments Undefined {A}.

Definition bind {A B : Type} (c : result A) (k : A -> result B) : result B :=
  match c with
  | Ok a => k a
  | Throw e => Throw e
  | Undefined => Undefined
  end.

Notation "x <- c ;; k" := (bind c (fun x => k))
  (at level 61, c at next level, right associativity).

(** [a[i]] through a raw pointer to an array holding the elements of [a]. *)
Definition read {A : Type} (a : list A) (i : Z) : result A :=
  if i <? 0 then Undefined
  else match nth_error a (Z.to_nat i) with
       | Some x => Ok x
       | None => Undefined
       end.

(** ** C++ [int] *)

Definition INT_MIN : Z := - 2 ^ 31.
Definition INT_MAX : Z := 2 ^ 31 - 1.

Definition is_int (z : Z) : bool := (INT_MIN <=? z) && (z <=? INT_MAX).

(** [a - b] on [int]: overflow is undefined behaviour. *)
Definition int_sub (a b : Z) : result Z :=
  if is_int (a - b) then Ok (a - b) else Undefined.

(** ** C++ [double] *)

Class DoubleOps (D : Type) : Type := {
  dadd : D -> D -> D;
  dsub : D -> D -> D;
  dmul : D -> D -> D;
  ddiv : D -> D -> D;
  dle : D -> D -> bool;          (* x <= y *)
  dlt : D -> D -> bool;          (* x < y *)
  of_int : Z -> D;               (* double(i) *)
  dlit : Q -> D                  (* a decimal literal of the source *)
}.

(** [x >= y] is [y <= x]. *)
Definition dge {D} `{DoubleOps D} (x y : D) : bool := dle y x.

Declare Scope double_scope.
Delimit Scope double_scope with D.
Infix "+" := dadd : double_scope.
Infix "-" := dsub : double_scope.
Infix "*" := dmul : double_scope.
Infix "/" := ddiv : double_scope.

(** Exact arithmetic: the rationals. *)
#[export] Instance ExactOps : DoubleOps Q := {
  dadd := Qplus;
  dsub := Qminus;
  dmul := Qmult;
  ddiv := Qdiv;
  dle := Qle_bool;
  dlt := fun x y => negb (Qle_bool y x);
  of_int := inject_Z;
  dlit := fun q => q
}.

(** Binary64: [double(i)] is exact for every [int]; a decimal literal
    [n/10^k] is the correctly rounded quotient of two exactly
    representable integers, i.e. the double nearest to the literal. *)
Definition float_of_Z (z : Z) : float :=
  if z <? 0 then PrimFloat.opp (PrimFloat.of_uint63 (Uint63.of_Z (- z)))
  else PrimFloat.of_uint63 (Uint63.of_Z z).

#[export] Instance Binary64Ops : DoubleOps float := {
  dadd := PrimFloat.add;
  dsub := PrimFloat.sub;
  dmul := PrimFloat.mul;
  ddiv := PrimFloat.div;
  dle := PrimFloat.leb;
  dlt := PrimFloat.ltb;
  of_int := float_of_Z;
  dlit := fun q =>
    PrimFloat.div (float_of_Z (Qnum q)) (float_of_Z (Zpos (Qden q)))
}.

(** ** The program *)

Definition RPM_POINTS : Z := 6.
Definition LOAD_POINTS : Z := 5.
Definition TABLE_SIZE : Z := RPM_POINTS * LOAD_POINTS.

Section Program.

Context {D : Type} `{DoubleOps D}.
Local Open Scope double_scope.

Record EngineState : Type := {
  rpm : Z;
  map : Z;
  airMass : D;
  coolantTempC : D;
  measuredAFR : D
}.

(** *** class Injector *)

Record Injector : Type := { flowRate : D }.

Definition Injector_new (flow : D) : result Injector :=
  if dle flow (dlit 0.0) then Throw (invalid_argument "invalid injector flow")
  else Ok {| flowRate := flow |}.

Definition pulseWidth (inj : Injector) (fuelMass : D) : D :=
  fuelMass / flowRate inj.

(** *** class FuelMap *)

Record FuelMap : Type := {
  rpmAxis : list Z;       (* const int*, the caller's array *)
  loadAxis : list Z;      (* const int*, the caller's array *)
  afrTable : list D       (* double[TABLE_SIZE], owned *)
}.

(** The [for] loop of [lowerIndex], entered at index [i] with [iters]
    iterations left before [i < size - 1] fails. *)
Fixpoint lowerIndex_scan (axis : list Z) (value : Z) (i : Z) (iters : nat)
  : result Z :=
  match iters with
  | O => Ok 0%Z
  | S k =>
      lo <- read axis i ;;
      if value >=? lo then
        hi <- read axis (i + 1)%Z ;;
        if value <=? hi then Ok i
        else lowerIndex_scan axis value (i + 1)%Z k
      else lowerIndex_scan axis value (i + 1)%Z k
  end.

Definition lowerIndex (axis : list Z) (size : Z) (value : Z) : result Z :=
  first <- read axis 0%Z ;;
  if value <=? first then Ok 0%Z
  else
    last <- read axis (size - 1)%Z ;;
    if value >=? last then Ok (size - 2)%Z
    else lowerIndex_scan axis value 0%Z (Z.to_nat (size - 1)).

Definition lerp (a b t : D) : D := a + t * (b - a).

Definition index (loadIndex rpmIndex : Z) : Z :=
  (loadIndex * RPM_POINTS + rpmIndex)%Z.

Definition applyColdStartEnrichment (afr coolant : D) : D :=
  if dge coolant (dlit 90.0) then afr
  else
    let factor := dlit 1.3 - (coolant / dlit 90.0) * dlit 0.3 in
    afr * factor.

Definition applyClosedLoopCorrection (afr measured : D) : D :=
  let error := afr - measured in
  let correctionFactor := dlit 1.0 - dlit 0.1 * error in
  afr * correctionFactor.

(** The constructor's copy loop: [afrTable[i] = table[i]] for [i] from
    [i] on, [n] times. *)
Fixpoint copy_table (table : list D) (i : Z) (n : nat) : result (list D) :=
  match n with
  | O => Ok []
  | S k =>
      x <- read table i ;;
      rest <- copy_table table (i + 1)%Z k ;;
      Ok (x :: rest)
  end.

Definition FuelMap_new (rpmA loadA : list Z) (table : list D)
  : result FuelMap :=
  t <- copy_table table 0%Z (Z.to_nat TABLE_SIZE) ;;
  Ok {| rpmAxis := rpmA; loadAxis := loadA; afrTable := t |}.

Definition targetAFR (fm : FuelMap) (rpm_ load_ : Z) : result D :=
  r <- lowerIndex (rpmAxis fm) RPM_POINTS rpm_ ;;
  l <- lowerIndex (loadAxis fm) LOAD_POINTS load_ ;;
  r0 <- read (rpmAxis fm) r ;;
  rnum <- int_sub rpm_ r0 ;;
  r1 <- read (rpmAxis fm) (r + 1)%Z ;;
  r0' <- read (rpmAxis fm) r ;;
  rden <- int_sub r1 r0' ;;
  let rT := of_int rnum / of_int rden in
  l0 <- read (loadAxis fm) l ;;
  lnum <- int_sub load_ l0 ;;
  l1 <- read (loadAxis fm) (l + 1)%Z ;;
  l0' <- read (loadAxis fm) l ;;
  lden <- int_sub l1 l0' ;;
  let lT := of_int lnum / of_int lden in
  q11 <- read (afrTable fm) (index l r) ;;
  q12 <- read (afrTable fm) (index l (r + 1)) ;;
  q21 <- read (afrTable fm) (index (l + 1) r) ;;
  q22 <- read (afrTable fm) (index (l + 1) (r + 1)) ;;
  let r1 := lerp q11 q12 rT in
  let r2 := lerp q21 q22 rT in
  Ok (lerp r1 r2 lT).

Definition getFinalAFR (fm : FuelMap) (rpm_ load_ : Z) (coolant measured : D)
  : result D :=
  afr <- targetAFR fm rpm_ load_ ;;
  let afr := applyColdStartEnrichment afr coolant in
  let afr := applyClosedLoopCorrection afr measured in
  Ok afr.

(** *** class FuelController *)

Record FuelController : Type := {
  fuelMap : FuelMap;
  injector : Injector
}.

Definition computePulseWidth (c : FuelController) (state : EngineState)
  : result D :=
  afr <- getFinalAFR (fuelMap c) (rpm state) (map state)
                     (coolantTempC state) (measuredAFR state) ;;
  let fuelMass := airMass state / afr in
  Ok (pulseWidth (injector c) fuelMass).

End Program.

Arguments EngineState D : clear implicits.
Arguments Injector D : clear implicits.
Arguments FuelMap D : clear implicits.
Arguments FuelController D : clear implicits.

(** ** The configuration of [main] *)

Definition main_rpmAxis : list Z := [1000; 2000; 3000; 4000; 5000; 6000].
Definition main_loadAxis : list Z := [20; 40; 60; 80; 100].

Definition main_afrTable_lit : list Q := [
  14.7; 14.7; 14.7; 14.7; 14.7; 14.7;
  14.3; 14.1; 13.9; 13.7; 13.6; 13.6;
  13.6; 13.3; 13.0; 12.8; 12.8; 12.8;
  12.9; 12.6; 12.3; 12.0; 12.0; 12.0;
  12.2; 12.0; 11.8; 11.6; 11.5; 11.5 ]%Q.

Section Main.
Context {D : Type} `{DoubleOps D}.

Definition main_afrTable : list D := List.map dlit main_afrTable_lit.

Definition main_state : EngineState D :=
  {| rpm := 3500; map := 80; airMass := dlit 0.45;
     coolantTempC := dlit 20.0; measuredAFR := dlit 14.0 |}.

(** [main] down to the value it prints. *)
Definition main_pulseWidth : result D :=
  fm <- FuelMap_new main_rpmAxis main_loadAxis main_afrTable ;;
  inj <- Injector_new (dlit 0.02) ;;
  let controller := {| fuelMap := fm; injector := inj |} in
  computePulseWidth controller main_state.

End Main.

(** * Vocabulary of the statements *)

(** ** Arrays and axes *)

(** The element at index [i] of an [int] array, for statements. *)
Definition at_ (axis : list Z) (i : Z) : Z := nth (Z.to_nat i) axis 0.

Fixpoint strictly_increasing (l : list Z) : bool :=
  match l with
  | a :: ((b :: _) as t) => (a <? b) && strictly_increasing t
  | _ => true
  end.

(** The closed interval [[axis[j], axis[j+1]]] contains [v]. *)
Definition within (axis : list Z) (v j : Z) : Prop :=
  at_ axis j <= v <= at_ axis (j + 1).

(** ** Outcomes *)

Definition never_throws {A : Type} (c : result A) : Prop :=
  forall e, c <> Throw e.

Definition signals_error {A : Type} (c : result A) : Prop :=
  exists e, c = Throw e.

(** ** Shape of a map and value of a lookup *)

(** Values whose differences cannot overflow an [int]. *)
Definition small (z : Z) : bool := (- 2 ^ 30 <=? z) && (z <? 2 ^ 30).

Section LookupValue.

Context {D : Type} `{DoubleOps D}.

(** The shape the constructor's caller is expected to supply (nothing in
    the source checks it), with breakpoints in the range of [small]. *)
Definition wf_map (fm : FuelMap D) : bool :=
  (Z.of_nat (length (rpmAxis fm)) =? RPM_POINTS) &&
  (Z.of_nat (length (loadAxis fm)) =? LOAD_POINTS) &&
  (Z.of_nat (length (afrTable fm)) =? TABLE_SIZE) &&
  forallb small (rpmAxis fm) && forallb small (loadAxis fm).

Definition cell (fm : FuelMap D) (i : Z) : D :=
  nth (Z.to_nat i) (afrTable fm) (dlit 0.0).

(** The normalised position of [v] in interval [i] of [axis]. *)
Definition fraction (axis : list Z) (v i : Z) : D :=
  ddiv (of_int (v - at_ axis i)) (of_int (at_ axis (i + 1) - at_ axis i)).

Definition bilinear (fm : FuelMap D) (rpm_ load_ r l : Z) : D :=
  let rT := fraction (rpmAxis fm) rpm_ r in
  let lT := fraction (loadAxis fm) load_ l in
  lerp (lerp (cell fm (index l r)) (cell fm (index l (r + 1))) rT)
       (lerp (cell fm (index (l + 1) r)) (cell fm (index (l + 1) (r + 1))) rT)
       lT.

End LookupValue.

(** ** Scenarios *)

Section Scenario.

Context {D : Type} `{DoubleOps D}.

(** [x] and [y] are numerically equal. *)
Definition same (x y : D) : bool := dle x y && dle y x.

(** [x] lies strictly within [tol] of [c]. *)
Definition near (x c tol : D) : bool :=
  dlt (dsub c tol) x && dlt x (dadd c tol).

(** The map, injector and controller that [main] builds. *)
Definition main_map : FuelMap D :=
  {| rpmAxis := main_rpmAxis; loadAxis := main_loadAxis;
     afrTable := main_afrTable |}.

Definition main_injector : Injector D := {| flowRate := dlit 0.02 |}.

Definition main_controller : FuelController D :=
  {| fuelMap := main_map; injector := main_injector |}.

(** The run of [main], stage by stage, against the figures of the
    specification. *)
Definition main_scenario : Prop :=
  exists base final pw : D,
    FuelMap_new main_rpmAxis main_loadAxis main_afrTable = Ok main_map /\
    Injector_new (dlit 0.02) = Ok main_injector /\
    targetAFR main_map 3500 80 = Ok base /\
    same base (dlit 12.15) = true /\
    let enriched := applyColdStartEnrichment base (dlit 20.0) in
    same enriched
         (dmul base (dsub (dlit 1.3)
                          (dmul (ddiv (dlit 20.0) (dlit 90.0)) (dlit 0.3))))
    = true /\
    near enriched (dlit 14.98) (dlit 0.01) = true /\
    getFinalAFR main_map 3500 80 (dlit 20.0) (dlit 14.0) = Ok final /\
    same final (applyClosedLoopCorrection enriched (dlit 14.0)) = true /\
    near final (dlit 13.51) (dlit 0.01) = true /\
    computePulseWidth main_controller main_state = Ok pw /\
    main_pulseWidth = Ok pw /\
    near pw (dlit 1.665) (dlit 0.001) = true.

(** A warm engine at 5000 rpm and 80 kPa whose sensor reads 2.0. *)
Definition zero_afr_state : EngineState D :=
  {| rpm := 5000; map := 80; airMass := dlit 0.45;
     coolantTempC := dlit 90.0; measuredAFR := dlit 2.0 |}.

(** The state of [main] with the sensor reading 4.0. *)
Definition negative_afr_state : EngineState D :=
  {| rpm := 3500; map := 80; airMass := dlit 0.45;
     coolantTempC := dlit 20.0; measuredAFR := dlit 4.0 |}.

(** A speed axis whose first interval has zero width. *)
Definition degenerate_rpmAxis : list Z :=
  [1000; 1000; 2000; 3000; 4000; 5000].

Definition degenerate_map : FuelMap D :=
  {| rpmAxis := degenerate_rpmAxis; loadAxis := main_loadAxis;
     afrTable := main_afrTable |}.

(** Tables one value short of, and one value beyond, the 6 x 5 grid. *)
Definition short_table : list D := firstn 29 main_afrTable.
Definition long_table : list D := main_afrTable ++ [dlit 1.0].

End Scenario.

(** The run of [main] in exact arithmetic: the AFR that [targetAFR]
    returns, the AFR after cold-start enrichment and the AFR that
    [getFinalAFR] returns (12.15, 14.985 and 13.5089775, as the unreduced
    fractions the pipeline computes). *)
Definition main_targetAFR_exact : Q :=
  Eval vm_compute in
    match targetAFR (@main_map Q _) 3500 80 with
    | Ok afr => afr
    | _ => 0%Q
    end.

Definition main_enrichedAFR_exact : Q :=
  Eval vm_compute in applyColdStartEnrichment main_targetAFR_exact 20.0%Q.

Definition main_finalAFR_exact : Q :=
  Eval vm_compute in
    match getFinalAFR (@main_map Q _) 3500 80 20.0%Q 14.0%Q with
    | Ok afr => afr
    | _ => 0%Q
    end.

(** Further scenarios. *)

(** A warm engine at a grid point of [main]'s map, the sensor on target. *)
Definition on_target_state : EngineState Q :=
  {| rpm := 4000; map := 60; airMass := 0.45%Q;
     coolantTempC := 95.0%Q; measuredAFR := 12.8%Q |}.

(** The target AFR at that grid point as the lookup computes it (12.8, as
    an unreduced fraction). *)
Definition on_target_AFR_exact : Q :=
  Eval vm_compute in
    match targetAFR (@main_map Q _) 4000 60 with
    | Ok afr => afr
    | _ => 0%Q
    end.

(** The map of [main] over a speed axis that lacks its last breakpoint. *)
Definition five_point_map : FuelMap float :=
  {| rpmAxis := [1000; 2000; 3000; 4000; 5000]; loadAxis := main_loadAxis;
     afrTable := main_afrTable |}.

(** The state of [main] with a failed coolant sensor. *)
Definition nan_coolant_state : EngineState float :=
  {| rpm := 3500; map := 80; airMass := dlit 0.45;
     coolantTempC := nan; measuredAFR := dlit 14.0 |}.

(** ** Statements of the specification that the code does not meet *)

(** The tie rule as the specification words it: a query equal to the
    breakpoint that starts interval [k] resolves to [k]. *)
Definition tie_resolves_to_starting_interval (axis : list Z) (size : Z)
  : Prop :=
  forall k, 0 <= k < size - 1 -> lowerIndex axis size (at_ axis k) = Ok k.

Section Refuted.

Context {D : Type} `{DoubleOps D}.

(** Construction from a table whose length is not the product of the axis
    lengths fails. *)
Definition constructor_rejects_mismatch
           (rpmA loadA : list Z) (table : list D) : Prop :=
  length table <> (length rpmA * length loadA)%nat ->
  signals_error (FuelMap_new rpmA loadA table).

(** The converter fails when the corrected AFR is not positive. *)
Definition converter_rejects_nonpositive_AFR
           (c : FuelController D) (st : EngineState D) : Prop :=
  forall afr,
    getFinalAFR (fuelMap c) (rpm st) (map st) (coolantTempC st)
                (measuredAFR st) = Ok afr ->
    dle afr (dlit 0.0) = true ->
    signals_error (computePulseWidth c st).

(** A lookup that lands on a zero-width interval fails. *)
Definition lookup_rejects_degenerate_interval
           (fm : FuelMap D) (rpm_ load_ : Z) : Prop :=
  forall r l,
    lowerIndex (rpmAxis fm) RPM_POINTS rpm_ = Ok r ->
    lowerIndex (loadAxis fm) LOAD_POINTS load_ = Ok l ->
    at_ (rpmAxis fm) (r + 1) = at_ (rpmAxis fm) r \/
    at_ (loadAxis fm) (l + 1) = at_ (loadAxis fm) l ->
    signals_error (targetAFR fm rpm_ load_).

(** Cold-start enrichment lowers a positive AFR below 90.0. *)
Definition enrichment_lowers_AFR (afr coolant : D) : Prop :=
  dlt (dlit 0.0) afr = true -> dlt coolant (dlit 90.0) = true ->
  dlt (applyColdStartEnrichment afr coolant) afr = true.

End Refuted.

(** * Properties *)

(** ** Reading arrays *)

Lemma read_in_range {A : Type} (a : list A) (i : Z) (d : A) :
  0 <= i < Z.of_nat (length a) -> read a i = Ok (nth (Z.to_nat i) a d).
Proof.
  intros Hi. unfold read.
  destruct (Z.ltb_spec i 0) as [Hneg | _]; [lia |].
  rewrite (nth_error_nth' a d) by lia. reflexivity.
Qed.

Lemma read_axis (axis : list Z) (i : Z) :
  0 <= i < Z.of_nat (length axis) -> read axis i = Ok (at_ axis i).
Proof. apply read_in_range. Qed.

Lemma read_never_throws {A : Type} (a : list A) (i : Z) (e : exn) :
  read a i <> Throw e.
Proof.
  unfold read. destruct (i <? 0); [discriminate |].
  destruct (nth_error a (Z.to_nat i)); discriminate.
Qed.

(** ** The axis locator *)

Section Locator.

Variable axis : list Z.
Variable size : Z.
Hypothesis size_is_length : size = Z.of_nat (length axis).

(** The scan returns the first interval at or after [i] that contains the
    value, and 0 when there is none. *)
Lemma lowerIndex_scan_spec (v : Z) (k : nat) (i : Z) :
  0 <= i -> i + Z.of_nat k = size - 1 ->
  (exists j, lowerIndex_scan axis v i k = Ok j /\ i <= j < size - 1 /\
             within axis v j /\
             forall j', i <= j' < j -> ~ within axis v j')
  \/ (lowerIndex_scan axis v i k = Ok 0 /\
      forall j', i <= j' < size - 1 -> ~ within axis v j').
Proof.
  revert i. induction k as [| k IH]; intros i Hi Hk.
  - right. split; [reflexivity | intros j' Hj'; lia].
  - cbn [lowerIndex_scan].
    rewrite (read_axis axis i) by lia. cbn [bind].
    assert (Hstep : forall j', i <= j' < i + 1 -> j' = i) by (intros; lia).
    destruct (Z.geb_spec v (at_ axis i)) as [Hlo | Hlo].
    + rewrite (read_axis axis (i + 1)) by lia. cbn [bind].
      destruct (Z.leb_spec v (at_ axis (i + 1))) as [Hhi | Hhi].
      * left. exists i. split; [reflexivity |]. split; [lia |].
        split; [unfold within; lia |]. intros j' Hj'. lia.
      * destruct (IH (i + 1)) as [(j & Hj & Hr & Hw & Hfirst) | [H0 Hnone]];
          try lia.
        -- left. exists j. split; [assumption |]. split; [lia |].
           split; [assumption |].
           intros j' Hj'. destruct (Z.eq_dec j' i) as [-> | Hne].
           ++ unfold within. lia.
           ++ apply Hfirst. lia.
        -- right. split; [assumption |].
           intros j' Hj'. destruct (Z.eq_dec j' i) as [-> | Hne].
           ++ unfold within. lia.
           ++ apply Hnone. lia.
    + destruct (IH (i + 1)) as [(j & Hj & Hr & Hw & Hfirst) | [H0 Hnone]];
        try lia.
      * left. exists j. split; [assumption |]. split; [lia |].
           split; [assumption |].
        intros j' Hj'. destruct (Z.eq_dec j' i) as [-> | Hne].
        -- unfold within. lia.
        -- apply Hfirst. lia.
      * right. split; [assumption |].
        intros j' Hj'. destruct (Z.eq_dec j' i) as [-> | Hne].
        -- unfold within. lia.
        -- apply Hnone. lia.
Qed.

(** A value strictly between the first and the last breakpoint lies in
    some interval: the final [return 0] is not reached. *)
Lemma some_interval_contains (v : Z) :
  2 <= size -> at_ axis 0 < v < at_ axis (size - 1) ->
  ~ (forall j, 0 <= j < size - 1 -> ~ within axis v j).
Proof.
  intros Hsize [Hlo Hhi] Hnone.
  assert (Hall : forall n : nat, Z.of_nat n <= size - 1 ->
                                 at_ axis (Z.of_nat n) < v).
  { induction n as [| n IHn]; intros Hn.
    - exact Hlo.
    - specialize (IHn ltac:(lia)).
      specialize (Hnone (Z.of_nat n) ltac:(lia)). unfold within in Hnone.
      replace (Z.of_nat (S n)) with (Z.of_nat n + 1) by lia. lia. }
  specialize (Hall (Z.to_nat (size - 1)) ltac:(lia)).
  rewrite Z2Nat.id in Hall by lia. lia.
Qed.

Lemma lowerIndex_low (v : Z) :
  2 <= size -> v <= at_ axis 0 -> lowerIndex axis size v = Ok 0.
Proof.
  intros Hsize Hv. unfold lowerIndex.
  rewrite (read_axis axis 0) by lia. cbn [bind].
  destruct (Z.leb_spec v (at_ axis 0)); [reflexivity | lia].
Qed.

Lemma lowerIndex_high (v : Z) :
  2 <= size -> at_ axis 0 < v -> at_ axis (size - 1) <= v ->
  lowerIndex axis size v = Ok (size - 2).
Proof.
  intros Hsize Hlo Hv. unfold lowerIndex.
  rewrite (read_axis axis 0) by lia. cbn [bind].
  destruct (Z.leb_spec v (at_ axis 0)); [lia |].
  rewrite (read_axis axis (size - 1)) by lia. cbn [bind].
  destruct (Z.geb_spec v (at_ axis (size - 1))); [reflexivity | lia].
Qed.

Lemma lowerIndex_inside (v : Z) :
  2 <= size -> at_ axis 0 < v < at_ axis (size - 1) ->
  exists i, lowerIndex axis size v = Ok i /\ 0 <= i < size - 1 /\
            within axis v i /\
            forall j, 0 <= j < i -> ~ within axis v j.
Proof.
  intros Hsize Hv. unfold lowerIndex.
  rewrite (read_axis axis 0) by lia. cbn [bind].
  destruct (Z.leb_spec v (at_ axis 0)); [lia |].
  rewrite (read_axis axis (size - 1)) by lia. cbn [bind].
  destruct (Z.geb_spec v (at_ axis (size - 1))); [lia |].
  destruct (lowerIndex_scan_spec v (Z.to_nat (size - 1)) 0)
    as [(j & Hj & Hr & Hw & Hfirst) | [_ Hnone]]; try lia.
  - exists j. auto.
  - exfalso. exact (some_interval_contains v Hsize Hv Hnone).
Qed.

(** Whatever the breakpoints, the result is an index of an interval. *)
Lemma lowerIndex_bounds (v : Z) :
  2 <= size ->
  exists i, lowerIndex axis size v = Ok i /\ 0 <= i <= size - 2.
Proof.
  intros Hsize.
  destruct (Z.le_gt_cases v (at_ axis 0)) as [Hlow | Hlow].
  - exists 0. split; [apply lowerIndex_low; assumption | lia].
  - destruct (Z.le_gt_cases (at_ axis (size - 1)) v) as [Hhigh | Hhigh].
    + exists (size - 2). split; [apply lowerIndex_high; assumption | lia].
    + destruct (lowerIndex_inside v Hsize) as (i & Hi & Hr & _);
        [lia |].
      exists i. split; [assumption | lia].
Qed.

End Locator.

(** *** Strictly increasing axes *)

Lemma strictly_increasing_adjacent (l : list Z) :
  strictly_increasing l = true ->
  forall i : nat, (S i < length l)%nat -> nth i l 0 < nth (S i) l 0.
Proof.
  induction l as [| a t IH]; intros Hs i Hi; [simpl in Hi; lia |].
  destruct t as [| b t']; [simpl in Hi; lia |].
  cbn [strictly_increasing] in Hs. apply andb_prop in Hs as [Hab Ht].
  destruct i as [| i].
  - simpl. apply Z.ltb_lt. exact Hab.
  - change (nth i (b :: t') 0 < nth (S i) (b :: t') 0).
    apply IH; [exact Ht | simpl in Hi |- *; lia].
Qed.

Lemma strictly_increasing_at (axis : list Z) (i j : Z) :
  strictly_increasing axis = true ->
  0 <= i < j -> j < Z.of_nat (length axis) -> at_ axis i < at_ axis j.
Proof.
  intros Hs Hij Hj. unfold at_.
  assert (Hnat : forall d n : nat, (n + S d < length axis)%nat ->
                                   nth n axis 0 < nth (n + S d) axis 0).
  { induction d as [| d IHd]; intros n Hn.
    - replace (n + 1)%nat with (S n) by lia.
      apply strictly_increasing_adjacent; [exact Hs | lia].
    - apply Z.lt_trans with (nth (n + S d) axis 0).
      + apply IHd. lia.
      + replace (n + S (S d))%nat with (S (n + S d)) by lia.
        apply strictly_increasing_adjacent; [exact Hs | lia]. }
  replace (Z.to_nat j)
    with (Z.to_nat i + S (Z.to_nat (j - i - 1)))%nat by lia.
  apply Hnat. lia.
Qed.

(** ** Bounds of the table reads *)

Lemma index_in_table (l r : Z) :
  0 <= l <= LOAD_POINTS - 1 -> 0 <= r <= RPM_POINTS - 1 ->
  0 <= index l r < TABLE_SIZE.
Proof.
  unfold index, TABLE_SIZE, LOAD_POINTS, RPM_POINTS. intros Hl Hr. lia.
Qed.

Section Construction.

Context {D : Type} `{DoubleOps D}.

Lemma copy_table_length (table : list D) (n : nat) (i : Z) (t : list D) :
  copy_table table i n = Ok t -> length t = n.
Proof.
  revert i t. induction n as [| n IH]; intros i t Hc; cbn in Hc.
  - injection Hc as <-. reflexivity.
  - destruct (read table i) as [x | e |]; cbn in Hc; try discriminate.
    destruct (copy_table table (i + 1) n) as [rest | e |] eqn:Hrest;
      cbn in Hc; try discriminate.
    injection Hc as <-. cbn. f_equal. exact (IH _ _ Hrest).
Qed.

Lemma copy_table_never_throws (table : list D) (n : nat) (i : Z) (e : exn) :
  copy_table table i n <> Throw e.
Proof.
  revert i. induction n as [| n IH]; intros i; cbn; [discriminate |].
  pose proof (read_never_throws table i) as Hr.
  destruct (read table i) as [x | e' |]; cbn;
    [| exfalso; exact (Hr e' eq_refl) | discriminate].
  specialize (IH (i + 1)).
  destruct (copy_table table (i + 1) n) as [rest | e' |]; cbn;
    [discriminate | | discriminate].
  intros Heq. injection Heq as ->. exact (IH eq_refl).
Qed.

(** Copying [n] elements from index [i] of a table that holds them. *)
Lemma copy_table_in_range (table : list D) (n : nat) (i : nat) :
  (i + n <= length table)%nat ->
  copy_table table (Z.of_nat i) n = Ok (firstn n (skipn i table)).
Proof.
  revert i. induction n as [| n IH]; intros i Hlen; cbn [copy_table].
  - reflexivity.
  - destruct (nth_error table i) as [x |] eqn:Hx;
      [| apply nth_error_None in Hx; lia].
    unfold read at 1. destruct (Z.ltb_spec (Z.of_nat i) 0) as [Hneg | _];
      [lia |].
    rewrite Nat2Z.id, Hx. cbn [bind].
    replace (Z.of_nat i + 1) with (Z.of_nat (S i)) by lia.
    rewrite IH by lia. cbn [bind].
    f_equal.
    assert (Hsk : skipn i table = x :: skipn (S i) table).
    { clear - Hx. revert i Hx.
      induction table as [| y t IHt]; intros [| i] Hx; cbn in Hx;
        try discriminate.
      - injection Hx as ->. reflexivity.
      - cbn [skipn]. apply IHt. exact Hx. }
    rewrite Hsk. reflexivity.
Qed.

Lemma FuelMap_new_table_length (rpmA loadA : list Z) (table : list D)
      (fm : FuelMap D) :
  FuelMap_new rpmA loadA table = Ok fm ->
  rpmAxis fm = rpmA /\ loadAxis fm = loadA /\
  Z.of_nat (length (afrTable fm)) = TABLE_SIZE.
Proof.
  unfold FuelMap_new. intros Hnew.
  destruct (copy_table table 0 (Z.to_nat TABLE_SIZE)) as [t | e |] eqn:Ht;
    cbn in Hnew; try discriminate.
  injection Hnew as <-. cbn.
  rewrite (copy_table_length _ _ _ _ Ht). repeat split.
Qed.

End Construction.

(** ** Claims about the axis locator *)

(** C5, refuted as stated: on the load axis of [main], the query 80 equals
    the breakpoint that starts interval 3 ([80,100]), and [lowerIndex]
    answers 2, the interval [60,80] that ends there. *)
Lemma C5_tie_counterexample :
  strictly_increasing main_loadAxis = true /\
  at_ main_loadAxis 3 = 80 /\
  lowerIndex main_loadAxis LOAD_POINTS 80 = Ok 2 /\
  ~ tie_resolves_to_starting_interval main_loadAxis LOAD_POINTS.
Proof.
  repeat split.
  intros Htie. specialize (Htie 3 ltac:(unfold LOAD_POINTS; lia)).
  vm_compute in Htie. discriminate.
Qed.

(** C5, amended: for a strictly increasing axis of size at least 2,
    [lowerIndex] returns 0 when [value <= axis[0]], [size - 2] when
    [value >= axis[size-1]], and otherwise the index of the first interval
    [[axis[i], axis[i+1]]] that contains the value; a value equal to a
    breakpoint [axis[k]] with [k >= 1] resolves to [k - 1], the interval
    that ends at that breakpoint. *)
Theorem C5_lowerIndex_spec (axis : list Z) (size value : Z) :
  strictly_increasing axis = true ->
  size = Z.of_nat (length axis) ->
  2 <= size ->
  (value <= at_ axis 0 -> lowerIndex axis size value = Ok 0) /\
  (at_ axis (size - 1) <= value ->
   lowerIndex axis size value = Ok (size - 2)) /\
  (at_ axis 0 < value < at_ axis (size - 1) ->
   exists i, lowerIndex axis size value = Ok i /\ 0 <= i < size - 1 /\
             within axis value i /\
             forall j, 0 <= j < i -> ~ within axis value j) /\
  (forall k, 1 <= k < size -> value = at_ axis k ->
             lowerIndex axis size value = Ok (k - 1)).
Proof.
  intros Hs Hlen Hsize.
  assert (Hends : at_ axis 0 < at_ axis (size - 1))
    by (apply strictly_increasing_at; [exact Hs | lia | lia]).
  split; [apply lowerIndex_low; assumption |].
  split; [intros Hv; apply lowerIndex_high; try assumption; lia |].
  split; [apply lowerIndex_inside; assumption |].
  intros k Hk ->.
  destruct (Z.eq_dec k (size - 1)) as [-> | Hlast].
  - replace (size - 1 - 1) with (size - 2) by lia.
    apply lowerIndex_high; try assumption. lia.
  - assert (H0k : at_ axis 0 < at_ axis k)
      by (apply strictly_increasing_at; [exact Hs | lia | lia]).
    assert (Hkl : at_ axis k < at_ axis (size - 1))
      by (apply strictly_increasing_at; [exact Hs | lia | lia]).
    destruct (lowerIndex_inside axis size Hlen (at_ axis k) Hsize)
      as (i & Hi & Hr & Hw & Hfirst); [lia |].
    rewrite Hi. f_equal.
    assert (Hprev : within axis (at_ axis k) (k - 1)).
    { unfold within. replace (k - 1 + 1) with k by lia.
      assert (at_ axis (k - 1) < at_ axis k)
        by (apply strictly_increasing_at; [exact Hs | lia | lia]).
      lia. }
    destruct (Z.lt_trichotomy i (k - 1)) as [Hlt | [Heq | Hgt]].
    + exfalso. destruct Hw as [_ Hw].
      assert (at_ axis (i + 1) < at_ axis k)
        by (apply strictly_increasing_at; [exact Hs | lia | lia]).
      lia.
    + exact Heq.
    + exfalso. apply (Hfirst (k - 1)); [lia | exact Hprev].
Qed.

Lemma C5_lowerIndex_spec_witness :
  (80 <= at_ main_loadAxis 0 -> lowerIndex main_loadAxis 5 80 = Ok 0) /\
  (at_ main_loadAxis (5 - 1) <= 80 ->
   lowerIndex main_loadAxis 5 80 = Ok (5 - 2)) /\
  (at_ main_loadAxis 0 < 80 < at_ main_loadAxis (5 - 1) ->
   exists i, lowerIndex main_loadAxis 5 80 = Ok i /\ 0 <= i < 5 - 1 /\
             within main_loadAxis 80 i /\
             forall j, 0 <= j < i -> ~ within main_loadAxis 80 j) /\
  (forall k, 1 <= k < 5 -> 80 = at_ main_loadAxis k ->
             lowerIndex main_loadAxis 5 80 = Ok (k - 1)).
Proof.
  apply (C5_lowerIndex_spec main_loadAxis 5 80);
    [reflexivity | reflexivity | lia].
Defined.

(** C9: whatever the breakpoints of an axis of size at least 2 (strictly
    increasing or not) and whatever the query, [lowerIndex] returns an
    index in [[0, size - 2]]; so in [targetAFR], on a map constructed over
    axes of [RPM_POINTS] and [LOAD_POINTS] breakpoints,
    [r + 1 <= RPM_POINTS - 1], [l + 1 <= LOAD_POINTS - 1], the four table
    indices are within [TABLE_SIZE] and the four reads return cells of the
    table. *)
Theorem C9_lookup_in_bounds
        {D : Type} `{DoubleOps D}
        (rpmA loadA : list Z) (table : list D) (fm : FuelMap D)
        (rpm_ load_ : Z) :
  Z.of_nat (length rpmA) = RPM_POINTS ->
  Z.of_nat (length loadA) = LOAD_POINTS ->
  FuelMap_new rpmA loadA table = Ok fm ->
  (forall (axis : list Z) (size value : Z),
      size = Z.of_nat (length axis) -> 2 <= size ->
      exists i, lowerIndex axis size value = Ok i /\ 0 <= i <= size - 2) /\
  exists r l,
    lowerIndex (rpmAxis fm) RPM_POINTS rpm_ = Ok r /\
    lowerIndex (loadAxis fm) LOAD_POINTS load_ = Ok l /\
    (0 <= r /\ r + 1 <= RPM_POINTS - 1) /\
    (0 <= l /\ l + 1 <= LOAD_POINTS - 1) /\
    (0 <= index l r < TABLE_SIZE /\
     0 <= index l (r + 1) < TABLE_SIZE /\
     0 <= index (l + 1) r < TABLE_SIZE /\
     0 <= index (l + 1) (r + 1) < TABLE_SIZE) /\
    exists q11 q12 q21 q22,
      read (afrTable fm) (index l r) = Ok q11 /\
      read (afrTable fm) (index l (r + 1)) = Ok q12 /\
      read (afrTable fm) (index (l + 1) r) = Ok q21 /\
      read (afrTable fm) (index (l + 1) (r + 1)) = Ok q22.
Proof.
  intros Hr Hl Hnew.
  destruct (FuelMap_new_table_length rpmA loadA table fm Hnew)
    as (-> & -> & Htable).
  split; [intros axis size value Hlen Hsize;
          exact (lowerIndex_bounds axis size Hlen value Hsize) |].
  destruct (lowerIndex_bounds rpmA RPM_POINTS (eq_sym Hr) rpm_)
    as (r & Hri & Hrb); [unfold RPM_POINTS; lia |].
  destruct (lowerIndex_bounds loadA LOAD_POINTS (eq_sym Hl) load_)
    as (l & Hli & Hlb); [unfold LOAD_POINTS; lia |].
  exists r, l.
  assert (H11 : 0 <= index l r < TABLE_SIZE)
    by (apply index_in_table; lia).
  assert (H12 : 0 <= index l (r + 1) < TABLE_SIZE)
    by (apply index_in_table; lia).
  assert (H21 : 0 <= index (l + 1) r < TABLE_SIZE)
    by (apply index_in_table; lia).
  assert (H22 : 0 <= index (l + 1) (r + 1) < TABLE_SIZE)
    by (apply index_in_table; lia).
  split; [exact Hri |]. split; [exact Hli |].
  split; [lia |]. split; [lia |].
  split; [auto |].
  exists (cell fm (index l r)), (cell fm (index l (r + 1))),
         (cell fm (index (l + 1) r)), (cell fm (index (l + 1) (r + 1))).
  unfold cell.
  repeat split; apply read_in_range; rewrite Htable; assumption.
Qed.

Lemma C9_lookup_in_bounds_witness :
  (forall (axis : list Z) (size value : Z),
      size = Z.of_nat (length axis) -> 2 <= size ->
      exists i, lowerIndex axis size value = Ok i /\ 0 <= i <= size - 2) /\
  exists r l,
    lowerIndex main_rpmAxis RPM_POINTS 3500 = Ok r /\
    lowerIndex main_loadAxis LOAD_POINTS 80 = Ok l /\
    (0 <= r /\ r + 1 <= RPM_POINTS - 1) /\
    (0 <= l /\ l + 1 <= LOAD_POINTS - 1) /\
    (0 <= index l r < TABLE_SIZE /\
     0 <= index l (r + 1) < TABLE_SIZE /\
     0 <= index (l + 1) r < TABLE_SIZE /\
     0 <= index (l + 1) (r + 1) < TABLE_SIZE) /\
    exists q11 q12 q21 q22 : float,
      read main_afrTable (index l r) = Ok q11 /\
      read main_afrTable (index l (r + 1)) = Ok q12 /\
      read main_afrTable (index (l + 1) r) = Ok q21 /\
      read main_afrTable (index (l + 1) (r + 1)) = Ok q22.
Proof.
  exact (C9_lookup_in_bounds main_rpmAxis main_loadAxis main_afrTable
           (@main_map float _) 3500 80 eq_refl eq_refl eq_refl).
Defined.

(** ** Outcomes that are not exceptions *)

Lemma never_throws_Ok {A : Type} (a : A) : never_throws (Ok a).
Proof. intros e. discriminate. Qed.

Lemma never_throws_Undefined {A : Type} : never_throws (@Undefined A).
Proof. intros e. discriminate. Qed.

Lemma never_throws_bind {A B : Type} (c : result A) (k : A -> result B) :
  never_throws c -> (forall a, never_throws (k a)) -> never_throws (bind c k).
Proof.
  intros Hc Hk e. destruct c as [a | e' |]; cbn.
  - apply Hk.
  - exfalso. exact (Hc e' eq_refl).
  - discriminate.
Qed.

Lemma never_throws_read {A : Type} (a : list A) (i : Z) :
  never_throws (read a i).
Proof. intros e. apply read_never_throws. Qed.

Lemma never_throws_int_sub (a b : Z) : never_throws (int_sub a b).
Proof. intros e. unfold int_sub. destruct (is_int (a - b)); discriminate. Qed.

Lemma never_throws_if {A : Type} (b : bool) (c1 c2 : result A) :
  never_throws c1 -> never_throws c2 -> never_throws (if b then c1 else c2).
Proof. destruct b; auto. Qed.

Create HintDb nothrow.
#[local] Hint Resolve never_throws_Ok never_throws_Undefined never_throws_read
  never_throws_int_sub never_throws_bind never_throws_if : nothrow.

Lemma never_throws_lowerIndex_scan (axis : list Z) (v : Z) (k : nat) (i : Z) :
  never_throws (lowerIndex_scan axis v i k).
Proof.
  revert i. induction k as [| k IH]; intros i; cbn [lowerIndex_scan];
    auto 10 with nothrow.
Qed.

#[local] Hint Resolve never_throws_lowerIndex_scan : nothrow.

Lemma never_throws_lowerIndex (axis : list Z) (size v : Z) :
  never_throws (lowerIndex axis size v).
Proof. unfold lowerIndex. auto 10 with nothrow. Qed.

#[local] Hint Resolve never_throws_lowerIndex : nothrow.

Section NoThrow.

Context {D : Type} `{DoubleOps D}.

Lemma never_throws_copy_table (table : list D) (n : nat) (i : Z) :
  never_throws (copy_table table i n).
Proof. intros e. apply copy_table_never_throws. Qed.

Lemma never_throws_FuelMap_new (rpmA loadA : list Z) (table : list D) :
  never_throws (FuelMap_new rpmA loadA table).
Proof.
  unfold FuelMap_new.
  apply never_throws_bind; [apply never_throws_copy_table |].
  intros t. apply never_throws_Ok.
Qed.

Lemma never_throws_targetAFR (fm : FuelMap D) (rpm_ load_ : Z) :
  never_throws (targetAFR fm rpm_ load_).
Proof. unfold targetAFR. cbv zeta. auto 40 with nothrow. Qed.

Lemma never_throws_getFinalAFR (fm : FuelMap D) (rpm_ load_ : Z) (ct m : D) :
  never_throws (getFinalAFR fm rpm_ load_ ct m).
Proof.
  unfold getFinalAFR.
  apply never_throws_bind; [apply never_throws_targetAFR |].
  intros afr. apply never_throws_Ok.
Qed.

Lemma never_throws_computePulseWidth (c : FuelController D)
      (st : EngineState D) :
  never_throws (computePulseWidth c st).
Proof.
  unfold computePulseWidth.
  apply never_throws_bind; [apply never_throws_getFinalAFR |].
  intros afr. apply never_throws_Ok.
Qed.

(** The converter divides by whatever [getFinalAFR] returned. *)
Lemma computePulseWidth_divides (c : FuelController D) (st : EngineState D)
      (afr : D) :
  getFinalAFR (fuelMap c) (rpm st) (map st) (coolantTempC st) (measuredAFR st)
  = Ok afr ->
  computePulseWidth c st
  = Ok (ddiv (ddiv (airMass st) afr) (flowRate (injector c))).
Proof. intros Hafr. unfold computePulseWidth. rewrite Hafr. reflexivity. Qed.

End NoThrow.

(** ** The value of a lookup *)

Section Lookup.

Context {D : Type} `{DoubleOps D}.

Lemma small_at (axis : list Z) (i : Z) :
  forallb small axis = true -> 0 <= i < Z.of_nat (length axis) ->
  - 2 ^ 30 <= at_ axis i < 2 ^ 30.
Proof.
  intros Hall Hi. rewrite forallb_forall in Hall.
  assert (Hin : In (at_ axis i) axis) by (apply nth_In; lia).
  specialize (Hall _ Hin). unfold small in Hall.
  apply andb_prop in Hall as [Hlo Hhi].
  apply Z.leb_le in Hlo. apply Z.ltb_lt in Hhi. lia.
Qed.

Lemma int_sub_small (a b : Z) :
  - 2 ^ 30 <= a < 2 ^ 30 -> - 2 ^ 30 <= b < 2 ^ 30 ->
  int_sub a b = Ok (a - b).
Proof.
  intros Ha Hb. unfold int_sub, is_int, INT_MIN, INT_MAX.
  assert (Hpow : 2 ^ 31 = 2 * 2 ^ 30) by reflexivity.
  destruct (Z.leb_spec (- 2 ^ 31) (a - b)); [| lia].
  destruct (Z.leb_spec (a - b) (2 ^ 31 - 1)); [reflexivity | lia].
Qed.

(** On a map of the expected shape every read of [targetAFR] is in bounds
    and the call returns the bilinear interpolation, whatever the widths of
    the located intervals. *)
Lemma targetAFR_value (fm : FuelMap D) (rpm_ load_ : Z) :
  wf_map fm = true -> small rpm_ = true -> small load_ = true ->
  exists r l,
    lowerIndex (rpmAxis fm) RPM_POINTS rpm_ = Ok r /\
    lowerIndex (loadAxis fm) LOAD_POINTS load_ = Ok l /\
    targetAFR fm rpm_ load_ = Ok (bilinear fm rpm_ load_ r l).
Proof.
  intros Hwf Hrpm Hload. unfold wf_map in Hwf.
  repeat (apply andb_prop in Hwf as [Hwf ?]).
  repeat match goal with
         | Hz : (_ =? _) = true |- _ => apply Z.eqb_eq in Hz
         end.
  match goal with Hz : Z.of_nat (length (rpmAxis fm)) = _ |- _ =>
                    rename Hz into HR end.
  match goal with Hz : Z.of_nat (length (loadAxis fm)) = _ |- _ =>
                    rename Hz into HL end.
  match goal with Hz : Z.of_nat (length (afrTable fm)) = _ |- _ =>
                    rename Hz into HT end.
  match goal with Hz : forallb small (rpmAxis fm) = true |- _ =>
                    rename Hz into HRs end.
  match goal with Hz : forallb small (loadAxis fm) = true |- _ =>
                    rename Hz into HLs end.
  destruct (lowerIndex_bounds (rpmAxis fm) RPM_POINTS (eq_sym HR) rpm_)
    as (r & Hr & Hrb); [unfold RPM_POINTS; lia |].
  destruct (lowerIndex_bounds (loadAxis fm) LOAD_POINTS (eq_sym HL) load_)
    as (l & Hl & Hlb); [unfold LOAD_POINTS; lia |].
  exists r, l. split; [exact Hr |]. split; [exact Hl |].
  assert (Hsr : - 2 ^ 30 <= rpm_ < 2 ^ 30).
  { unfold small in Hrpm. apply andb_prop in Hrpm as [Ha Hb].
    apply Z.leb_le in Ha. apply Z.ltb_lt in Hb. lia. }
  assert (Hsl : - 2 ^ 30 <= load_ < 2 ^ 30).
  { unfold small in Hload. apply andb_prop in Hload as [Ha Hb].
    apply Z.leb_le in Ha. apply Z.ltb_lt in Hb. lia. }
  unfold targetAFR. rewrite Hr, Hl. cbn [bind].
  unfold RPM_POINTS in HR, Hrb. unfold LOAD_POINTS in HL, Hlb.
  rewrite !(read_axis (rpmAxis fm)) by lia. cbn [bind].
  rewrite !int_sub_small
    by (try assumption; apply small_at; try assumption; lia).
  cbn [bind].
  rewrite !(read_axis (loadAxis fm)) by lia. cbn [bind].
  rewrite !int_sub_small
    by (try assumption; apply small_at; try assumption; lia).
  cbn [bind].
  assert (HT' : Z.of_nat (length (afrTable fm)) = 30) by exact HT.
  rewrite !(read_in_range (afrTable fm) _ (dlit 0.0))
    by (unfold index, RPM_POINTS; lia).
  reflexivity.
Qed.

End Lookup.

(** ** Comparisons of binary64 values *)

Lemma SFcompare_Lt_swap (x y : spec_float) :
  SFcompare x y = Some Lt -> SFcompare y x = Some Gt.
Proof.
  destruct x as [[|] | [|] | | [|] m e];
    destruct y as [[|] | [|] | | [|] m' e'];
    cbn; try discriminate; try reflexivity.
  all: rewrite (Z.compare_antisym e e').
  all: replace (Pos.compare_cont Eq m' m)
         with (CompOpp (Pos.compare_cont Eq m m'))
         by (rewrite Pos.compare_cont_antisym; reflexivity).
  all: destruct (e ?= e'), (Pos.compare_cont Eq m m'); cbn;
    intros Hc; try discriminate; reflexivity.
Qed.

(** [x < y] excludes [x >= y], also for infinities (a NaN satisfies
    neither). *)
Lemma float_ltb_not_geb (x y : float) :
  PrimFloat.ltb x y = true -> PrimFloat.leb y x = false.
Proof.
  rewrite FloatAxioms.ltb_spec, FloatAxioms.leb_spec.
  unfold SFltb, SFleb. intros Hlt.
  destruct (SFcompare (Prim2SF x) (Prim2SF y)) as [[| |] |] eqn:Hc;
    try discriminate.
  rewrite (SFcompare_Lt_swap _ _ Hc). reflexivity.
Qed.

Lemma Qlt_not_geb (x y : Q) : (x < y)%Q -> Qle_bool y x = false.
Proof.
  intros Hlt. destruct (Qle_bool y x) eqn:Hle; [| reflexivity].
  apply Qle_bool_iff in Hle. exfalso. exact (Qlt_not_le _ _ Hlt Hle).
Qed.

(** ** Claims about the correction stages *)

(** In binary64 [dlit] yields the double nearest to the literal: it agrees
    with the literals of the correction stages written out in hexadecimal
    and with the table of [main] read as decimal floating-point literals. *)
Lemma correction_literals_binary64 :
  @dlit float _ 90.0 = 90%float /\
  @dlit float _ 1.3 = 0x1.4cccccccccccdp+0%float /\
  @dlit float _ 0.3 = 0x1.3333333333333p-2%float /\
  @dlit float _ 0.1 = 0x1.999999999999ap-4%float /\
  @dlit float _ 1.0 = 1%float /\
  @dlit float _ 0.0 = 0%float.
Proof. repeat split. Qed.

#[local] Set Warnings "-inexact-float".

Lemma main_afrTable_binary64 :
  @main_afrTable float _ = [
    14.7; 14.7; 14.7; 14.7; 14.7; 14.7;
    14.3; 14.1; 13.9; 13.7; 13.6; 13.6;
    13.6; 13.3; 13.0; 12.8; 12.8; 12.8;
    12.9; 12.6; 12.3; 12.0; 12.0; 12.0;
    12.2; 12.0; 11.8; 11.6; 11.5; 11.5 ]%float.
Proof. reflexivity. Qed.

Lemma main_state_binary64 :
  @main_state float _
  = {| rpm := 3500; map := 80; airMass := 0.45%float;
       coolantTempC := 20%float; measuredAFR := 14%float |} /\
  @main_injector float _ = {| flowRate := 0.02%float |}.
Proof. split; reflexivity. Qed.

#[local] Set Warnings "+inexact-float".

Lemma cold_start_below_exact (afr t : Q) :
  (t < 90.0 ->
   applyColdStartEnrichment afr t = afr * (1.3 - (t / 90.0) * 0.3))%Q.
Proof.
  intros Hlt. unfold applyColdStartEnrichment, dge. cbn [dle ExactOps dlit].
  rewrite (Qlt_not_geb _ _ Hlt). reflexivity.
Qed.

(** C6: cold-start enrichment leaves the AFR unchanged for every coolant
    temperature at or above 90.0, returns
    [afr * (1.3 - (coolantTemp / 90.0) * 0.3)] below 90.0, and multiplies the
    AFR by exactly 1.3 at 0.0; in exact arithmetic and in binary64. *)
Theorem C6_cold_start_enrichment :
  (forall afr t : Q,
      (90.0 <= t -> applyColdStartEnrichment afr t = afr) /\
      (t < 90.0 ->
       applyColdStartEnrichment afr t = afr * (1.3 - (t / 90.0) * 0.3)) /\
      applyColdStartEnrichment afr 0.0 == afr * 1.3)%Q /\
  (forall afr t : float,
      (dge t (dlit 90.0) = true -> applyColdStartEnrichment afr t = afr) /\
      (dlt t (dlit 90.0) = true ->
       applyColdStartEnrichment afr t
       = dmul afr (dsub (dlit 1.3) (dmul (ddiv t (dlit 90.0)) (dlit 0.3)))) /\
      applyColdStartEnrichment afr (dlit 0.0) = dmul afr (dlit 1.3)).
Proof.
  split; intros afr t.
  - split; [| split].
    + intros Hge. unfold applyColdStartEnrichment, dge. cbn [dle ExactOps dlit].
      apply Qle_bool_iff in Hge. rewrite Hge. reflexivity.
    + apply cold_start_below_exact.
    + unfold applyColdStartEnrichment, dge. cbn. field.
  - split; [| split].
    + intros Hge. unfold applyColdStartEnrichment. rewrite Hge. reflexivity.
    + intros Hlt. unfold applyColdStartEnrichment, dge.
      cbn [dle dlt Binary64Ops] in Hlt |- *.
      rewrite (float_ltb_not_geb _ _ Hlt). reflexivity.
    + unfold applyColdStartEnrichment, dge. cbn [dle Binary64Ops].
      replace (PrimFloat.leb (dlit 90.0) (dlit 0.0)) with false by reflexivity.
      cbv zeta. f_equal.
Qed.

Lemma C6_cold_start_enrichment_witness :
  (applyColdStartEnrichment 12.15 95.0 = 12.15 /\
   applyColdStartEnrichment 12.15 20.0
   = 12.15 * (1.3 - (20.0 / 90.0) * 0.3))%Q /\
  applyColdStartEnrichment (@dlit float _ 12.15) (dlit 95.0) = dlit 12.15 /\
  applyColdStartEnrichment (@dlit float _ 12.15) (dlit 20.0)
  = dmul (dlit 12.15) (dsub (dlit 1.3) (dmul (ddiv (dlit 20.0) (dlit 90.0))
                                             (dlit 0.3))).
Proof.
  destruct C6_cold_start_enrichment as [Hexact Hbin].
  split; [split |].
  - apply (Hexact 12.15%Q 95.0%Q). vm_compute. discriminate.
  - apply (Hexact 12.15%Q 20.0%Q). vm_compute. reflexivity.
  - split.
    + apply (Hbin (dlit 12.15) (dlit 95.0)). reflexivity.
    + apply (Hbin (dlit 12.15) (dlit 20.0)). reflexivity.
Defined.

(** In exact arithmetic the stage never lowers a positive AFR below 90.0:
    the factor [1.3 - (t/90)*0.3] exceeds 1 there. *)
Lemma cold_start_raises_AFR (afr t : Q) :
  (0 < afr -> t < 90.0 -> afr < applyColdStartEnrichment afr t)%Q.
Proof.
  intros Hafr Ht. rewrite (cold_start_below_exact afr t Ht).
  assert (Hdiv : (t / 90.0 == t * (1 # 90))%Q) by field.
  assert (Hfactor : (1 < 1.3 - (t / 90.0) * 0.3)%Q) by (rewrite Hdiv; lra).
  set (factor := (1.3 - (t / 90.0) * 0.3)%Q) in *.
  nra.
Qed.

(** C1: the run of [main]. [targetAFR(3500,80)] is exactly 12.15; cold-start
    enrichment multiplies it by [1.3 - (20/90)*0.3], giving 14.98 to within
    0.01; closed-loop correction gives 13.51 to within 0.01;
    [computePulseWidth], the value [main] prints, is 1.665 ms to within
    0.001. In exact arithmetic and in binary64. *)
Theorem C1_main_scenario :
  @main_scenario Q _ /\ @main_scenario float _.
Proof.
  split; unfold main_scenario; do 3 eexists;
    repeat (split; [lazy; reflexivity |]); lazy; reflexivity.
Qed.

(** C7, the code against the claim: at the AFR 12.15 and 20.0 degrees of
    [main], cold-start enrichment returns 14.985, an AFR above its input
    (a leaner mixture), in exact arithmetic and in binary64; the claimed
    lowering fails there. *)
Theorem C7_enrichment_raises_AFR_at_20C :
  (applyColdStartEnrichment 12.15 20.0 == 14.985)%Q /\
  (12.15 < applyColdStartEnrichment 12.15 20.0)%Q /\
  ~ @enrichment_lowers_AFR Q _ 12.15%Q 20.0%Q /\
  PrimFloat.ltb (dlit 12.15) (applyColdStartEnrichment (dlit 12.15) (dlit 20.0))
  = true /\
  ~ @enrichment_lowers_AFR float _ (dlit 12.15) (dlit 20.0).
Proof.
  split; [vm_compute; reflexivity |].
  split; [vm_compute; reflexivity |].
  split; [intros Hlow; specialize (Hlow eq_refl eq_refl); vm_compute in Hlow;
          discriminate |].
  split; [vm_compute; reflexivity |].
  intros Hlow. specialize (Hlow eq_refl eq_refl). vm_compute in Hlow.
  discriminate.
Qed.

(** ** Claims about the converter *)

(** C8: in exact arithmetic, for every controller and reading whose
    corrected AFR and injector flow rate are positive, the pulse width
    satisfies [pulseWidth * flowRate * correctedAFR == airMass]. *)
Theorem C8_round_trip (c : FuelController Q) (st : EngineState Q) (afr : Q) :
  getFinalAFR (fuelMap c) (rpm st) (map st) (coolantTempC st) (measuredAFR st)
  = Ok afr ->
  (0 < afr)%Q -> (0 < flowRate (injector c))%Q ->
  exists pw, computePulseWidth c st = Ok pw /\
             (pw * flowRate (injector c) * afr == airMass st)%Q.
Proof.
  intros Hafr Hpos Hflow.
  exists (airMass st / afr / flowRate (injector c))%Q.
  split; [exact (computePulseWidth_divides c st afr Hafr) |].
  field. split; intros Hzero.
  - rewrite Hzero in Hpos. exact (Qlt_irrefl 0 Hpos).
  - rewrite Hzero in Hflow. exact (Qlt_irrefl 0 Hflow).
Qed.

Lemma C8_round_trip_witness :
  exists pw, computePulseWidth (@main_controller Q _) main_state = Ok pw /\
             (pw * 0.02 * main_finalAFR_exact == 0.45)%Q.
Proof.
  change (exists pw,
             computePulseWidth (@main_controller Q _) main_state = Ok pw /\
             (pw * flowRate (injector (@main_controller Q _))
              * main_finalAFR_exact == airMass (@main_state Q _))%Q).
  apply (C8_round_trip (@main_controller Q _) main_state main_finalAFR_exact);
    vm_compute; reflexivity.
Defined.

(** In binary64 the run of [main] reproduces the air mass to the last bit. *)
Lemma round_trip_main_binary64 :
  exists afr pw : float,
    getFinalAFR main_map 3500 80 (dlit 20.0) (dlit 14.0) = Ok afr /\
    computePulseWidth main_controller main_state = Ok pw /\
    PrimFloat.mul (PrimFloat.mul pw (dlit 0.02)) afr = dlit 0.45.
Proof. do 2 eexists. repeat (split; [lazy; reflexivity |]). reflexivity. Qed.

(** C10: closed-loop correction computes
    [afr * (1.0 - 0.1 * (afr - measuredAFR))]; in exact arithmetic, for every
    positive [afr] with [afr - measuredAFR >= 10] the corrected AFR is at
    most 0, and whenever the pipeline reaches the stage with these values
    [getFinalAFR] returns that AFR and [computePulseWidth] divides the air
    mass by it, unguarded. *)
Theorem C10_nonpositive_AFR_reaches_divisor (afr measured : Q) :
  (0 < afr)%Q -> (10 <= afr - measured)%Q ->
  let corrected := applyClosedLoopCorrection afr measured in
  (corrected == afr * (1.0 - 0.1 * (afr - measured)))%Q /\
  (corrected <= 0)%Q /\
  forall (c : FuelController Q) (st : EngineState Q) (base : Q),
    targetAFR (fuelMap c) (rpm st) (map st) = Ok base ->
    applyColdStartEnrichment base (coolantTempC st) = afr ->
    measuredAFR st = measured ->
    getFinalAFR (fuelMap c) (rpm st) (map st) (coolantTempC st)
                (measuredAFR st) = Ok corrected /\
    computePulseWidth c st
    = Ok (airMass st / corrected / flowRate (injector c))%Q.
Proof.
  intros Hpos Herr corrected.
  split; [reflexivity |].
  split.
  - unfold corrected, applyClosedLoopCorrection. cbn.
    assert (Hfactor : (1.0 - 0.1 * (afr - measured) <= 0)%Q) by lra.
    set (factor := (1.0 - 0.1 * (afr - measured))%Q) in *.
    nra.
  - intros c st base Hbase Henriched Hmeasured.
    assert (Hfinal : getFinalAFR (fuelMap c) (rpm st) (map st)
                                 (coolantTempC st) (measuredAFR st)
                     = Ok corrected).
    { unfold getFinalAFR. rewrite Hbase. cbn [bind].
      rewrite Henriched, Hmeasured. reflexivity. }
    split; [exact Hfinal |].
    exact (computePulseWidth_divides c st corrected Hfinal).
Qed.

Lemma C10_nonpositive_AFR_reaches_divisor_witness :
  let corrected := applyClosedLoopCorrection main_enrichedAFR_exact 4.0%Q in
  (corrected <= 0)%Q /\
  computePulseWidth (@main_controller Q _) negative_afr_state
  = Ok (0.45 / corrected / 0.02)%Q.
Proof.
  intros corrected.
  destruct (C10_nonpositive_AFR_reaches_divisor main_enrichedAFR_exact 4.0%Q)
    as (_ & Hle & Hrun); [vm_compute; reflexivity | vm_compute; discriminate |].
  split; [exact Hle |].
  destruct (Hrun (@main_controller Q _) negative_afr_state
                 main_targetAFR_exact)
    as [_ Hpw]; [vm_compute; reflexivity | vm_compute; reflexivity
                 | reflexivity |].
  exact Hpw.
Defined.

(** C3, refuted as stated: in binary64, on the map and injector of [main],
    a warm engine at 5000 rpm and 80 kPa with a sensor reading of 2.0 has a
    corrected AFR of exactly 0; [computePulseWidth] divides by it and
    returns an infinite pulse width, with no error. With a sensor reading
    of 4.0 in the state of [main] the corrected AFR is negative and a
    negative pulse width is returned. *)
Lemma C3_converter_counterexample :
  getFinalAFR (@main_map float _) 5000 80 (dlit 90.0) (dlit 2.0) = Ok 0%float /\
  computePulseWidth (@main_controller float _) zero_afr_state = Ok infinity /\
  ~ converter_rejects_nonpositive_AFR (@main_controller float _)
      zero_afr_state /\
  (exists afr pw : float,
      getFinalAFR main_map 3500 80 (dlit 20.0) (dlit 4.0) = Ok afr /\
      PrimFloat.ltb afr 0 = true /\
      computePulseWidth main_controller negative_afr_state = Ok pw /\
      PrimFloat.ltb pw 0 = true).
Proof.
  split; [vm_compute; reflexivity |].
  split; [vm_compute; reflexivity |].
  split.
  - intros Hrej.
    destruct (Hrej 0%float) as [e He];
      [vm_compute; reflexivity | vm_compute; reflexivity |].
    vm_compute in He. discriminate.
  - do 2 eexists. repeat (split; [lazy; reflexivity |]). lazy. reflexivity.
Qed.

(** C3, amended: [computePulseWidth] never signals an error and makes no
    check of the corrected AFR: whatever AFR [getFinalAFR] returns, positive
    or not, the result is [(airMass / correctedAFR) / flowRate]. *)
Theorem C3_converter_divides_unchecked
        {D : Type} `{DoubleOps D} (c : FuelController D) (st : EngineState D) :
  never_throws (computePulseWidth c st) /\
  forall afr,
    getFinalAFR (fuelMap c) (rpm st) (map st) (coolantTempC st)
                (measuredAFR st) = Ok afr ->
    computePulseWidth c st
    = Ok (ddiv (ddiv (airMass st) afr) (flowRate (injector c))).
Proof.
  split; [apply never_throws_computePulseWidth |].
  intros afr Hafr. exact (computePulseWidth_divides c st afr Hafr).
Qed.

Lemma C3_converter_divides_unchecked_witness :
  computePulseWidth (@main_controller float _) zero_afr_state
  = Ok (PrimFloat.div (PrimFloat.div (dlit 0.45) 0%float) (dlit 0.02)).
Proof.
  destruct (C3_converter_divides_unchecked
              (@main_controller float _) zero_afr_state) as [_ Hdiv].
  apply (Hdiv 0%float). vm_compute. reflexivity.
Defined.

(** ** Claims about the lookup *)

(** C4, refuted as stated: in binary64, on a speed axis whose first
    interval is [1000,1000], the query 1000 is located in that zero-width
    interval and [targetAFR] returns a NaN, with no error. *)
Lemma C4_degenerate_counterexample :
  lowerIndex degenerate_rpmAxis RPM_POINTS 1000 = Ok 0 /\
  at_ degenerate_rpmAxis (0 + 1) = at_ degenerate_rpmAxis 0 /\
  (exists v : float,
      targetAFR degenerate_map 1000 20 = Ok v /\ PrimFloat.eqb v v = false) /\
  ~ lookup_rejects_degenerate_interval (@degenerate_map float _) 1000 20.
Proof.
  split; [reflexivity |]. split; [reflexivity |].
  split.
  - eexists. split; [lazy; reflexivity | reflexivity].
  - intros Hrej.
    destruct (Hrej 0 0) as [e He];
      [reflexivity | reflexivity | left; reflexivity |].
    vm_compute in He. discriminate.
Qed.

(** C4, amended: [targetAFR] never signals an error. On a map of the
    expected shape it returns the bilinear interpolation with the fractions
    computed by an unchecked division; when a located interval has zero
    width that division is by [double(0)] and its quotient (a NaN or an
    infinity in binary64) goes into the result. *)
Theorem C4_lookup_divides_unchecked
        {D : Type} `{DoubleOps D} (fm : FuelMap D) (rpm_ load_ : Z) :
  wf_map fm = true -> small rpm_ = true -> small load_ = true ->
  never_throws (targetAFR fm rpm_ load_) /\
  exists r l,
    lowerIndex (rpmAxis fm) RPM_POINTS rpm_ = Ok r /\
    lowerIndex (loadAxis fm) LOAD_POINTS load_ = Ok l /\
    targetAFR fm rpm_ load_ = Ok (bilinear fm rpm_ load_ r l) /\
    (at_ (rpmAxis fm) (r + 1) = at_ (rpmAxis fm) r ->
     fraction (rpmAxis fm) rpm_ r
     = ddiv (of_int (rpm_ - at_ (rpmAxis fm) r)) (of_int 0)) /\
    (at_ (loadAxis fm) (l + 1) = at_ (loadAxis fm) l ->
     fraction (loadAxis fm) load_ l
     = ddiv (of_int (load_ - at_ (loadAxis fm) l)) (of_int 0)).
Proof.
  intros Hwf Hrpm Hload.
  split; [apply never_throws_targetAFR |].
  destruct (targetAFR_value fm rpm_ load_ Hwf Hrpm Hload)
    as (r & l & Hr & Hl & Hv).
  exists r, l. repeat (split; [assumption |]).
  split; intros Hzero; unfold fraction; rewrite Hzero, Z.sub_diag;
    reflexivity.
Qed.

Lemma C4_lookup_divides_unchecked_witness :
  never_throws (targetAFR (@degenerate_map float _) 1000 20) /\
  exists r l,
    lowerIndex degenerate_rpmAxis RPM_POINTS 1000 = Ok r /\
    lowerIndex main_loadAxis LOAD_POINTS 20 = Ok l /\
    targetAFR (@degenerate_map float _) 1000 20
    = Ok (bilinear degenerate_map 1000 20 r l) /\
    (at_ degenerate_rpmAxis (r + 1) = at_ degenerate_rpmAxis r ->
     fraction degenerate_rpmAxis 1000 r
     = PrimFloat.div (float_of_Z (1000 - at_ degenerate_rpmAxis r))
                     (float_of_Z 0)) /\
    (at_ main_loadAxis (l + 1) = at_ main_loadAxis l ->
     fraction main_loadAxis 20 l
     = PrimFloat.div (float_of_Z (20 - at_ main_loadAxis l)) (float_of_Z 0)).
Proof.
  exact (C4_lookup_divides_unchecked (@degenerate_map float _) 1000 20
           eq_refl eq_refl eq_refl).
Defined.

(** ** Claims about construction *)

(** C2, refuted as stated: on the axes of [main] (6 x 5 = 30), a table of
    31 values is accepted and a Fuel Map is created from it; a table of 29
    values is read out of bounds, which is undefined behaviour and not a
    signalled error. *)
Lemma C2_constructor_counterexample :
  length (@long_table float _) = 31%nat /\
  FuelMap_new main_rpmAxis main_loadAxis (@long_table float _) = Ok main_map /\
  ~ constructor_rejects_mismatch main_rpmAxis main_loadAxis
      (@long_table float _) /\
  length (@short_table float _) = 29%nat /\
  FuelMap_new main_rpmAxis main_loadAxis (@short_table float _) = Undefined /\
  ~ constructor_rejects_mismatch main_rpmAxis main_loadAxis
      (@short_table float _).
Proof.
  split; [reflexivity |]. split; [reflexivity |].
  split; [| split; [reflexivity |]; split; [reflexivity |]].
  - intros Hrej. destruct Hrej as [e He]; [cbn; lia |].
    vm_compute in He. discriminate.
  - intros Hrej. destruct Hrej as [e He]; [cbn; lia |].
    vm_compute in He. discriminate.
Qed.

(** C2, amended: the constructor checks no shape and never signals an
    error; given a table of at least [TABLE_SIZE] values, whatever the
    lengths of the axes, it creates a Fuel Map holding the first
    [TABLE_SIZE] values of the table. *)
Theorem C2_constructor_copies_unchecked
        {D : Type} `{DoubleOps D}
        (rpmA loadA : list Z) (table : list D) :
  never_throws (FuelMap_new rpmA loadA table) /\
  (TABLE_SIZE <= Z.of_nat (length table) ->
   FuelMap_new rpmA loadA table
   = Ok {| rpmAxis := rpmA; loadAxis := loadA;
           afrTable := firstn (Z.to_nat TABLE_SIZE) table |}).
Proof.
  split; [apply never_throws_FuelMap_new |].
  intros Hlen. unfold FuelMap_new.
  pose proof (copy_table_in_range table (Z.to_nat TABLE_SIZE) 0) as Hcopy.
  change (Z.of_nat 0) with 0 in Hcopy.
  change (skipn 0 table) with table in Hcopy.
  rewrite Hcopy by (unfold TABLE_SIZE, RPM_POINTS, LOAD_POINTS in *; lia).
  reflexivity.
Qed.

Lemma C2_constructor_copies_unchecked_witness :
  FuelMap_new main_rpmAxis main_loadAxis (@long_table float _)
  = Ok {| rpmAxis := main_rpmAxis; loadAxis := main_loadAxis;
          afrTable := firstn (Z.to_nat TABLE_SIZE) long_table |}.
Proof.
  destruct (C2_constructor_copies_unchecked
              main_rpmAxis main_loadAxis (@long_table float _)) as [_ Hcopy].
  apply Hcopy. vm_compute. discriminate.
Defined.

(** * Further properties of the code *)

(** ** The interpolator and the cell index *)

(** X1: in exact arithmetic [lerp a b 0] is [a], [lerp a b 1] is [b], and
    for [t] in [[0,1]] the result lies between the two end values; the
    bilinear combination of [targetAFR] (speed first, then load) equals the
    one taken in the other order. *)
Theorem X1_lerp_between (a b t : Q) :
  (0 <= t <= 1)%Q ->
  (lerp a b 0 == a /\ lerp a b 1 == b)%Q /\
  ((a <= b -> a <= lerp a b t <= b) /\
   (b <= a -> b <= lerp a b t <= a))%Q /\
  (forall q11 q12 q21 q22 tx ty : Q,
      lerp (lerp q11 q12 tx) (lerp q21 q22 tx) ty
      == lerp (lerp q11 q21 ty) (lerp q12 q22 ty) tx)%Q.
Proof.
  intros [Ht0 Ht1]. unfold lerp. cbn [dadd dmul dsub ExactOps].
  split; [split; ring |].
  split; [split; intros Hab; split; nra |].
  intros q11 q12 q21 q22 tx ty. ring.
Qed.

Lemma X1_lerp_between_witness :
  (lerp 12.3 12.0 0 == 12.3 /\ lerp 12.3 12.0 1 == 12.0)%Q /\
  ((12.3 <= 12.0 -> 12.3 <= lerp 12.3 12.0 0.5 <= 12.0) /\
   (12.0 <= 12.3 -> 12.0 <= lerp 12.3 12.0 0.5 <= 12.3))%Q /\
  (forall q11 q12 q21 q22 tx ty : Q,
      lerp (lerp q11 q12 tx) (lerp q21 q22 tx) ty
      == lerp (lerp q11 q21 ty) (lerp q12 q22 ty) tx)%Q.
Proof.
  apply (X1_lerp_between 12.3 12.0 0.5).
  split; vm_compute; discriminate.
Defined.

(** X2: [index] is the row-major position of a cell: for a speed index
    within [RPM_POINTS] the quotient and remainder by [RPM_POINTS] give the
    load and speed indices back, so distinct cells of the grid have
    distinct positions. *)
Theorem X2_index_row_major (l r : Z) :
  0 <= r < RPM_POINTS ->
  index l r / RPM_POINTS = l /\ index l r mod RPM_POINTS = r /\
  forall l' r', 0 <= r' < RPM_POINTS -> index l r = index l' r' ->
                l = l' /\ r = r'.
Proof.
  unfold index, RPM_POINTS. intros Hr.
  assert (Hq : (l * 6 + r) / 6 = l)
    by (rewrite Z.div_add_l by lia; rewrite Z.div_small by lia; lia).
  assert (Hm : (l * 6 + r) mod 6 = r)
    by (rewrite Z.add_comm, Z.mod_add by lia; apply Z.mod_small; lia).
  split; [exact Hq |]. split; [exact Hm |].
  intros l' r' Hr' Heq. lia.
Qed.

Lemma X2_index_row_major_witness :
  index 3 2 / RPM_POINTS = 3 /\ index 3 2 mod RPM_POINTS = 2 /\
  forall l' r', 0 <= r' < RPM_POINTS -> index 3 2 = index l' r' ->
                3 = l' /\ 2 = r'.
Proof. apply (X2_index_row_major 3 2). unfold RPM_POINTS. lia. Defined.

(** ** The axis locator on strictly increasing axes *)

(** The located interval [i]: the value is above [axis[i]] unless [i] is
    the first interval, and at most [axis[i+1]] unless [i] is the last. *)
Lemma lowerIndex_char (axis : list Z) (size v : Z) :
  strictly_increasing axis = true ->
  size = Z.of_nat (length axis) -> 2 <= size ->
  exists i, lowerIndex axis size v = Ok i /\ 0 <= i <= size - 2 /\
            (i = 0 \/ at_ axis i < v) /\
            (i = size - 2 \/ v <= at_ axis (i + 1)) /\
            (v < at_ axis 0 -> i = 0) /\
            (at_ axis (size - 1) < v -> i = size - 2) /\
            (at_ axis 0 <= v <= at_ axis (size - 1) -> within axis v i).
Proof.
  intros Hs Hlen Hsize.
  assert (Hmono : forall i j, 0 <= i < j -> j < size ->
                              at_ axis i < at_ axis j)
    by (intros i j Hij Hj; apply strictly_increasing_at; [exact Hs | | ]; lia).
  destruct (Z.le_gt_cases v (at_ axis 0)) as [Hlow | Hlow].
  - exists 0. rewrite (lowerIndex_low axis size Hlen v Hsize Hlow).
    pose proof (Hmono 0 1 ltac:(lia) ltac:(lia)) as H01.
    pose proof (Hmono 0 (size - 1) ltac:(lia) ltac:(lia)) as H0l.
    change (0 + 1) with 1.
    split; [reflexivity |]. split; [lia |].
    split; [left; reflexivity |]. split; [right; lia |].
    split; [intros; reflexivity |]. split; [intros; lia |].
    intros Hin. unfold within. change (0 + 1) with 1. lia.
  - destruct (Z.le_gt_cases (at_ axis (size - 1)) v) as [Hhigh | Hhigh].
    + exists (size - 2).
      rewrite (lowerIndex_high axis size Hlen v Hsize Hlow Hhigh).
      pose proof (Hmono (size - 2) (size - 1) ltac:(lia) ltac:(lia)) as Hpl.
      split; [reflexivity |]. split; [lia |].
      split; [right; lia |]. split; [left; reflexivity |].
      split; [intros; lia |]. split; [intros; reflexivity |].
      intros Hin. unfold within.
      replace (size - 2 + 1) with (size - 1) by lia. lia.
    + destruct (lowerIndex_inside axis size Hlen v Hsize)
        as (i & Hi & Hr & Hw & Hfirst); [lia |].
      exists i. split; [exact Hi |]. split; [lia |].
      split.
      { destruct (Z.eq_dec i 0) as [-> | Hi0]; [left; reflexivity | right].
        destruct Hw as [Hwl Hwh].
        destruct (Z.eq_dec (at_ axis i) v) as [Heq | Hne]; [| lia].
        exfalso. apply (Hfirst (i - 1)); [lia |].
        unfold within. replace (i - 1 + 1) with i by lia.
        pose proof (Hmono (i - 1) i ltac:(lia) ltac:(lia)). lia. }
      split; [right; exact (proj2 Hw) |].
      split; [intros; lia |]. split; [intros; lia |].
      intros _. exact Hw.
Qed.

(** X3: on a strictly increasing axis [lowerIndex] is monotone: a larger
    query is never located in an earlier interval. *)
Theorem X3_lowerIndex_monotone (axis : list Z) (size v v' : Z) :
  strictly_increasing axis = true ->
  size = Z.of_nat (length axis) -> 2 <= size ->
  v <= v' ->
  exists i i', lowerIndex axis size v = Ok i /\
               lowerIndex axis size v' = Ok i' /\ i <= i'.
Proof.
  intros Hs Hlen Hsize Hle.
  destruct (lowerIndex_char axis size v Hs Hlen Hsize)
    as (i & Hi & Hib & Hlo & _).
  destruct (lowerIndex_char axis size v' Hs Hlen Hsize)
    as (i' & Hi' & Hib' & _ & Hhi' & _).
  exists i, i'. split; [exact Hi |]. split; [exact Hi' |].
  destruct (Z.le_gt_cases i i') as [Hok | Hbad]; [exact Hok | exfalso].
  destruct Hlo as [-> | Hlo]; [lia |].
  destruct Hhi' as [-> | Hhi']; [lia |].
  destruct (Z.eq_dec (i' + 1) i) as [Heq | Hne].
  - rewrite Heq in Hhi'. lia.
  - assert (at_ axis (i' + 1) < at_ axis i)
      by (apply strictly_increasing_at; [exact Hs | lia | lia]).
    lia.
Qed.

Lemma X3_lowerIndex_monotone_witness :
  exists i i', lowerIndex main_rpmAxis 6 3500 = Ok i /\
               lowerIndex main_rpmAxis 6 5000 = Ok i' /\ i <= i'.
Proof.
  apply (X3_lowerIndex_monotone main_rpmAxis 6 3500 5000);
    [reflexivity | reflexivity | lia | lia].
Defined.

(** X16: on any axis of at least 2 breakpoints, ordered or not (the
    constructor accepts repeated or unordered breakpoints), a query
    strictly between the first and the last breakpoint is located in an
    interval that contains it, [axis[i] <= value <= axis[i+1]], and in the
    first such interval. *)
Theorem X16_lowerIndex_contains (axis : list Z) (size v : Z) :
  size = Z.of_nat (length axis) -> 2 <= size ->
  at_ axis 0 < v < at_ axis (size - 1) ->
  exists i, lowerIndex axis size v = Ok i /\ 0 <= i <= size - 2 /\
            at_ axis i <= v <= at_ axis (i + 1) /\
            forall j, 0 <= j < i -> ~ within axis v j.
Proof.
  intros Hlen Hsize Hv.
  destruct (lowerIndex_inside axis size Hlen v Hsize Hv)
    as (i & Hi & Hr & Hw & Hfirst).
  exists i. split; [exact Hi |]. split; [lia |].
  split; [exact Hw | exact Hfirst].
Qed.

Lemma X16_lowerIndex_contains_witness :
  exists i, lowerIndex [10; 30; 30; 20; 40] 5 25 = Ok i /\ 0 <= i <= 5 - 2 /\
            at_ [10; 30; 30; 20; 40] i <= 25 <= at_ [10; 30; 30; 20; 40] (i + 1)
            /\ forall j, 0 <= j < i -> ~ within [10; 30; 30; 20; 40] 25 j.
Proof.
  apply (X16_lowerIndex_contains [10; 30; 30; 20; 40] 5 25);
    [reflexivity | lia | vm_compute; split; reflexivity].
Defined.

(** ** The lookup in exact arithmetic *)












(** ** The correction stages in exact arithmetic *)

(** X7: closed-loop correction is the identity when the measured AFR
    equals the AFR it is given; for a positive AFR it returns a lower AFR
    when the measured AFR is below it and a higher AFR when the measured
    AFR is above it. *)
Theorem X7_closed_loop_direction (afr measured : Q) :
  (0 < afr)%Q ->
  ((measured == afr -> applyClosedLoopCorrection afr measured == afr) /\
   (measured < afr -> applyClosedLoopCorrection afr measured < afr) /\
   (afr < measured -> afr < applyClosedLoopCorrection afr measured))%Q.
Proof.
  intros Hpos. unfold applyClosedLoopCorrection.
  cbn [dadd dmul dsub dlit ExactOps]. cbv zeta.
  split; [| split].
  - intros ->. field.
  - intros Hlt.
    assert (Hfactor : (1.0 - 0.1 * (afr - measured) < 1)%Q) by lra.
    set (factor := (1.0 - 0.1 * (afr - measured))%Q) in *. nra.
  - intros Hlt.
    assert (Hfactor : (1 < 1.0 - 0.1 * (afr - measured))%Q) by lra.
    set (factor := (1.0 - 0.1 * (afr - measured))%Q) in *. nra.
Qed.

Lemma X7_closed_loop_direction_witness :
  ((14.0 == 14.985 -> applyClosedLoopCorrection 14.985 14.0 == 14.985) /\
   (14.0 < 14.985 -> applyClosedLoopCorrection 14.985 14.0 < 14.985) /\
   (14.985 < 14.0 -> 14.985 < applyClosedLoopCorrection 14.985 14.0))%Q.
Proof.
  apply (X7_closed_loop_direction 14.985 14.0). vm_compute. reflexivity.
Defined.

(** The cold-start factor in exact arithmetic, with the division written
    as a product. *)
Lemma cold_start_value_exact (afr t : Q) :
  (t < 90.0 ->
   applyColdStartEnrichment afr t == afr * (1.3 - t * (1 # 300)))%Q.
Proof.
  intros Hlt. rewrite (cold_start_below_exact afr t Hlt). field.
Qed.

Lemma cold_start_warm_exact (afr t : Q) :
  (90.0 <= t)%Q -> applyColdStartEnrichment afr t = afr.
Proof.
  intros Hge. unfold applyColdStartEnrichment, dge. cbn [dle ExactOps dlit].
  apply Qle_bool_iff in Hge. rewrite Hge. reflexivity.
Qed.

(** X8: in exact arithmetic, for a non-negative AFR the output of
    cold-start enrichment never increases with the coolant temperature,
    across the threshold at 90.0 included (the factor reaches 1 there); from
    0.0 up to 90.0 the output of a positive AFR is above the AFR and at
    most 1.3 times the AFR. *)
Theorem X8_cold_start_monotone (afr t1 t2 : Q) :
  (0 <= afr)%Q -> (t1 <= t2)%Q ->
  (applyColdStartEnrichment afr t2 <= applyColdStartEnrichment afr t1)%Q /\
  ((0 < afr -> 0 <= t1 -> t1 < 90.0 ->
    afr < applyColdStartEnrichment afr t1 <= 1.3 * afr)%Q).
Proof.
  intros Hafr Hle. split.
  - destruct (Qlt_le_dec t2 90.0) as [H2 | H2].
    + assert (H1 : (t1 < 90.0)%Q) by lra.
      rewrite (cold_start_value_exact afr t1 H1),
              (cold_start_value_exact afr t2 H2).
      nra.
    + rewrite (cold_start_warm_exact afr t2 H2).
      destruct (Qlt_le_dec t1 90.0) as [H1 | H1].
      * rewrite (cold_start_value_exact afr t1 H1).
        assert (Hfactor : (1 <= 1.3 - t1 * (1 # 300))%Q) by lra.
        set (factor := (1.3 - t1 * (1 # 300))%Q) in *. nra.
      * rewrite (cold_start_warm_exact afr t1 H1). apply Qle_refl.
  - intros Hpos H0 H1. rewrite (cold_start_value_exact afr t1 H1).
    assert (Hfactor : (1 < 1.3 - t1 * (1 # 300) <= 1.3)%Q) by lra.
    set (factor := (1.3 - t1 * (1 # 300))%Q) in *. split; nra.
Qed.

Lemma X8_cold_start_monotone_witness :
  (applyColdStartEnrichment 12.15 95.0 <= applyColdStartEnrichment 12.15 20.0)%Q
  /\
  ((0 < 12.15 -> 0 <= 20.0 -> 20.0 < 90.0 ->
    12.15 < applyColdStartEnrichment 12.15 20.0 <= 1.3 * 12.15)%Q).
Proof.
  apply (X8_cold_start_monotone 12.15 20.0 95.0); vm_compute; discriminate.
Defined.

(** ** The pipeline in exact arithmetic *)

(** X9: on a warm engine (coolant at or above 90.0) whose sensor reads the
    table's target, both corrections leave the AFR alone: [getFinalAFR]
    returns the value of [targetAFR], and the pulse width is
    [airMass / target / flowRate]. *)
Theorem X9_pipeline_on_target
        (c : FuelController Q) (st : EngineState Q) (base : Q) :
  targetAFR (fuelMap c) (rpm st) (map st) = Ok base ->
  (90.0 <= coolantTempC st)%Q -> (measuredAFR st == base)%Q ->
  exists final pw,
    getFinalAFR (fuelMap c) (rpm st) (map st) (coolantTempC st)
                (measuredAFR st) = Ok final /\
    (final == base)%Q /\
    computePulseWidth c st = Ok pw /\
    (0 < base -> pw == airMass st / base / flowRate (injector c))%Q.
Proof.
  intros Hbase Hwarm Hmeasured.
  assert (Hfinal : getFinalAFR (fuelMap c) (rpm st) (map st)
                     (coolantTempC st) (measuredAFR st)
                   = Ok (applyClosedLoopCorrection base (measuredAFR st))).
  { unfold getFinalAFR. rewrite Hbase. cbn [bind].
    rewrite (cold_start_warm_exact base _ Hwarm). reflexivity. }
  assert (Heq : (applyClosedLoopCorrection base (measuredAFR st) == base)%Q).
  { unfold applyClosedLoopCorrection.
    cbn [dadd dmul dsub dlit ExactOps]. cbv zeta. rewrite Hmeasured. field. }
  eexists. eexists. split; [exact Hfinal |]. split; [exact Heq |].
  split; [exact (computePulseWidth_divides c st _ Hfinal) |].
  intros Hpos. cbn [ddiv ExactOps]. rewrite Heq. reflexivity.
Qed.

Lemma X9_pipeline_on_target_witness :
  exists final pw,
    getFinalAFR (@main_map Q _) 4000 60 95.0%Q 12.8%Q = Ok final /\
    (final == on_target_AFR_exact)%Q /\
    computePulseWidth main_controller on_target_state = Ok pw /\
    (0 < on_target_AFR_exact ->
     pw == 0.45 / on_target_AFR_exact / 0.02)%Q.
Proof.
  refine (X9_pipeline_on_target (@main_controller Q _) on_target_state
            on_target_AFR_exact _ _ _).
  - vm_compute. reflexivity.
  - vm_compute. discriminate.
  - vm_compute. reflexivity.
Defined.

(** X10: in exact arithmetic, with a positive injector flow rate and a
    positive air mass, the pulse width has the sign of the corrected AFR:
    positive for a positive AFR, negative for a negative one. *)
Theorem X10_pulse_width_sign
        (c : FuelController Q) (st : EngineState Q) (afr : Q) :
  getFinalAFR (fuelMap c) (rpm st) (map st) (coolantTempC st) (measuredAFR st)
  = Ok afr ->
  (0 < flowRate (injector c))%Q -> (0 < airMass st)%Q ->
  exists pw, computePulseWidth c st = Ok pw /\
             ((0 < afr -> 0 < pw) /\ (afr < 0 -> pw < 0))%Q.
Proof.
  intros Hafr Hflow Hair.
  exists (airMass st / afr / flowRate (injector c))%Q.
  split; [exact (computePulseWidth_divides c st afr Hafr) |].
  pose proof (Qinv_lt_0_compat _ Hflow) as Hiflow.
  unfold Qdiv.
  set (a := airMass st) in *. set (iflow := (/ flowRate (injector c))%Q) in *.
  split; intros Hsign.
  - pose proof (Qinv_lt_0_compat _ Hsign) as Hiafr.
    set (iafr := (/ afr)%Q) in *.
    assert (Hprod : (0 < a * iafr)%Q) by nra. nra.
  - assert (Hinv : (afr * / afr == 1)%Q)
      by (apply Qmult_inv_r; intros Hz; rewrite Hz in Hsign;
          exact (Qlt_irrefl 0 Hsign)).
    set (iafr := (/ afr)%Q) in *.
    assert (Hiafr : (iafr < 0)%Q) by nra.
    assert (Hprod : (a * iafr < 0)%Q) by nra. nra.
Qed.

Lemma X10_pulse_width_sign_witness :
  exists pw, computePulseWidth (@main_controller Q _) main_state = Ok pw /\
             ((0 < main_finalAFR_exact -> 0 < pw) /\
              (main_finalAFR_exact < 0 -> pw < 0))%Q.
Proof.
  refine (X10_pulse_width_sign (@main_controller Q _) main_state
            main_finalAFR_exact _ _ _); vm_compute; reflexivity.
Defined.

(** ** Construction *)

Lemma SFcompare_Gt_swap (x y : spec_float) :
  SFcompare x y = Some Gt -> SFcompare y x = Some Lt.
Proof.
  destruct x as [[|] | [|] | | [|] m e];
    destruct y as [[|] | [|] | | [|] m' e'];
    cbn; try discriminate; try reflexivity.
  all: rewrite (Z.compare_antisym e e').
  all: replace (Pos.compare_cont Eq m' m)
         with (CompOpp (Pos.compare_cont Eq m m'))
         by (rewrite Pos.compare_cont_antisym; reflexivity).
  all: destruct (e ?= e'), (Pos.compare_cont Eq m m'); cbn;
    intros Hc; try discriminate; reflexivity.
Qed.

Lemma Prim2SF_nan : Prim2SF nan = S754_nan.
Proof. reflexivity. Qed.

(** A binary64 value that is not [<= y] is above [y] or is the NaN. *)
Lemma float_not_leb (x y : float) :
  PrimFloat.leb x y = false -> PrimFloat.ltb y x = true \/ x = nan \/ y = nan.
Proof.
  rewrite FloatAxioms.ltb_spec, FloatAxioms.leb_spec.
  unfold SFltb, SFleb. intros Hle.
  destruct (SFcompare (Prim2SF x) (Prim2SF y)) as [[| |] |] eqn:Hc;
    try discriminate.
  - left. rewrite (SFcompare_Gt_swap _ _ Hc). reflexivity.
  - right.
    destruct (Prim2SF x) as [[|] | [|] | | [|] m e] eqn:Hx;
      destruct (Prim2SF y) as [[|] | [|] | | [|] m' e'] eqn:Hy;
      cbn in Hc; try discriminate.
    all: first [ left; apply Prim2SF_inj; rewrite Hx; reflexivity
               | right; apply Prim2SF_inj; rewrite Hy; reflexivity ].
Qed.

(** X11: the [Injector] constructor. In exact arithmetic it throws
    [invalid_argument] exactly for a flow rate at or below 0 and otherwise
    stores the flow rate. In binary64 it throws exactly when
    [flowRate <= 0.0] holds, so besides the positive flow rates it accepts
    a NaN. *)
Theorem X11_Injector_new_accepts :
  (forall flow : Q,
      ((0 < flow)%Q -> Injector_new flow = Ok {| flowRate := flow |}) /\
      ((flow <= 0)%Q ->
       Injector_new flow = Throw (invalid_argument "invalid injector flow")))
  /\
  (forall flow : float,
      (PrimFloat.leb flow 0 = true ->
       Injector_new flow = Throw (invalid_argument "invalid injector flow")) /\
      (PrimFloat.leb flow 0 = false ->
       Injector_new flow = Ok {| flowRate := flow |} /\
       (PrimFloat.ltb 0 flow = true \/ flow = nan))) /\
  Injector_new nan = Ok {| flowRate := nan |}.
Proof.
  split; [| split].
  - intros flow. unfold Injector_new. cbn [dle dlit ExactOps]. split.
    + intros Hpos.
      replace (Qle_bool flow 0.0) with false; [reflexivity |].
      symmetry. apply Qlt_not_geb.
      assert (Hz : (0.0 == 0)%Q) by reflexivity. rewrite Hz. exact Hpos.
    + intros Hle.
      replace (Qle_bool flow 0.0) with true; [reflexivity |].
      symmetry. apply Qle_bool_iff.
      assert (Hz : (0.0 == 0)%Q) by reflexivity. rewrite Hz. exact Hle.
  - intros flow. unfold Injector_new. cbn [dle Binary64Ops].
    change (@dlit float Binary64Ops 0.0) with 0%float. split.
    + intros ->. reflexivity.
    + intros Hle. rewrite Hle. split; [reflexivity |].
      destruct (float_not_leb flow 0 Hle) as [Hlt | [Hnan | Hnan]];
        [left; exact Hlt | right; exact Hnan | discriminate Hnan].
  - reflexivity.
Qed.

Section ConstructionEdges.

Context {D : Type} `{DoubleOps D}.



End ConstructionEdges.


(** ** Undefined behaviour of the lookup *)

Section LookupEdges.

Context {D : Type} `{DoubleOps D}.

Lemma int_sub_overflow (a b : Z) :
  a - b < INT_MIN \/ INT_MAX < a - b -> int_sub a b = Undefined.
Proof.
  intros Hout. unfold int_sub, is_int.
  destruct (Z.leb_spec INT_MIN (a - b)) as [Hlo | Hlo]; [| reflexivity].
  destruct (Z.leb_spec (a - b) INT_MAX) as [Hhi | Hhi]; [lia | reflexivity].
Qed.

(** X13: on a map of the expected shape, a speed query so far below the
    first breakpoint, or so far above the second-to-last, that the [int]
    subtraction [rpm - rpmAxis[r]] of [targetAFR] overflows is undefined
    behaviour: the lookup clamps the interval, not the subtraction. *)
Theorem X13_targetAFR_overflow (fm : FuelMap D) (rpm_ load_ : Z) :
  wf_map fm = true ->
  rpm_ - at_ (rpmAxis fm) 0 < INT_MIN \/
  INT_MAX < rpm_ - at_ (rpmAxis fm) (RPM_POINTS - 2) ->
  targetAFR fm rpm_ load_ = Undefined.
Proof.
  intros Hwf Hout.
  pose proof Hwf as Hshape. unfold wf_map in Hshape.
  repeat (apply andb_prop in Hshape as [Hshape ?]).
  apply Z.eqb_eq in Hshape.
  repeat match goal with
         | Hz : (_ =? _) = true |- _ => apply Z.eqb_eq in Hz
         end.
  assert (HR : RPM_POINTS = Z.of_nat (length (rpmAxis fm))) by congruence.
  assert (HL : LOAD_POINTS = Z.of_nat (length (loadAxis fm))) by congruence.
  assert (Hpow : 2 ^ 31 = 2 * 2 ^ 30) by reflexivity.
  assert (Hpos : 0 < 2 ^ 30) by reflexivity.
  destruct (lowerIndex_bounds (loadAxis fm) LOAD_POINTS HL load_)
    as (l & Hl & _); [unfold LOAD_POINTS; lia |].
  pose proof (small_at (rpmAxis fm) 0 ltac:(assumption)
                ltac:(unfold RPM_POINTS in HR; lia)) as Ha0.
  pose proof (small_at (rpmAxis fm) (RPM_POINTS - 2) ltac:(assumption)
                ltac:(unfold RPM_POINTS in *; lia)) as Ha4.
  pose proof (small_at (rpmAxis fm) (RPM_POINTS - 1) ltac:(assumption)
                ltac:(unfold RPM_POINTS in *; lia)) as Ha5.
  unfold INT_MIN, INT_MAX in Hout.
  destruct Hout as [Hlow | Hhigh].
  - assert (Hr : lowerIndex (rpmAxis fm) RPM_POINTS rpm_ = Ok 0)
      by (apply lowerIndex_low; [exact HR | unfold RPM_POINTS; lia | lia]).
    unfold targetAFR. rewrite Hr, Hl. cbn [bind].
    rewrite (read_axis (rpmAxis fm) 0) by (unfold RPM_POINTS in HR; lia).
    cbn [bind].
    rewrite int_sub_overflow by (unfold INT_MIN; lia). reflexivity.
  - assert (Hr : lowerIndex (rpmAxis fm) RPM_POINTS rpm_
                 = Ok (RPM_POINTS - 2))
      by (apply lowerIndex_high;
          [exact HR | unfold RPM_POINTS; lia | lia | lia]).
    unfold targetAFR. rewrite Hr, Hl. cbn [bind].
    rewrite (read_axis (rpmAxis fm) (RPM_POINTS - 2))
      by (unfold RPM_POINTS in *; lia).
    cbn [bind].
    rewrite int_sub_overflow by (unfold INT_MAX; lia). reflexivity.
Qed.

(** X14: the constructor stores the axes unchecked, and on a map whose
    speed axis has fewer than [RPM_POINTS] breakpoints every query above
    the first breakpoint (every query at all, when the axis is empty) reads
    [rpmAxis[RPM_POINTS - 1]] out of bounds: undefined behaviour. *)
Theorem X14_short_speed_axis (fm : FuelMap D) (rpm_ load_ : Z) :
  Z.of_nat (length (rpmAxis fm)) < RPM_POINTS ->
  rpmAxis fm = [] \/ at_ (rpmAxis fm) 0 < rpm_ ->
  targetAFR fm rpm_ load_ = Undefined.
Proof.
  intros Hlen Hq. unfold targetAFR, lowerIndex.
  destruct (rpmAxis fm) as [| a t] eqn:Haxis; [reflexivity |].
  destruct Hq as [Hnil | Habove]; [discriminate |].
  change (read (a :: t) 0) with (Ok a). cbn [bind].
  change (at_ (a :: t) 0) with a in Habove.
  destruct (Z.leb_spec rpm_ a) as [Hle | _]; [lia |].
  assert (Hlast : read (a :: t) (RPM_POINTS - 1) = Undefined).
  { unfold read. change (RPM_POINTS - 1 <? 0) with false. cbv iota.
    destruct (nth_error (a :: t) (Z.to_nat (RPM_POINTS - 1))) eqn:Hn;
      [| reflexivity].
    exfalso. assert (Hsome : nth_error (a :: t) (Z.to_nat (RPM_POINTS - 1))
                             <> None) by (rewrite Hn; discriminate).
    apply nth_error_Some in Hsome. unfold RPM_POINTS in *. lia. }
  rewrite Hlast. reflexivity.
Qed.

End LookupEdges.

Lemma X13_targetAFR_overflow_witness :
  targetAFR (@main_map float _) INT_MIN 80 = Undefined.
Proof.
  apply (X13_targetAFR_overflow (@main_map float _) INT_MIN 80);
    [reflexivity | left; vm_compute; reflexivity].
Defined.

Lemma X14_short_speed_axis_witness :
  targetAFR five_point_map 3500 80 = Undefined.
Proof.
  apply (X14_short_speed_axis five_point_map 3500 80);
    [vm_compute; reflexivity | right; vm_compute; reflexivity].
Defined.

(** ** A NaN sensor reading in binary64 *)

Lemma float_mul_nan_r (x : float) : PrimFloat.mul x nan = nan.
Proof.
  apply Prim2SF_inj. rewrite FloatAxioms.mul_spec, Prim2SF_nan.
  destruct (Prim2SF x) as [[|] | [|] | | [|] m e]; reflexivity.
Qed.

Lemma float_mul_nan_l (x : float) : PrimFloat.mul nan x = nan.
Proof.
  apply Prim2SF_inj. rewrite FloatAxioms.mul_spec, Prim2SF_nan. reflexivity.
Qed.

Lemma float_sub_nan_r (x : float) : PrimFloat.sub x nan = nan.
Proof.
  apply Prim2SF_inj. rewrite FloatAxioms.sub_spec, Prim2SF_nan.
  destruct (Prim2SF x) as [[|] | [|] | | [|] m e]; reflexivity.
Qed.

Lemma float_div_nan_r (x : float) : PrimFloat.div x nan = nan.
Proof.
  apply Prim2SF_inj. rewrite FloatAxioms.div_spec, Prim2SF_nan.
  destruct (Prim2SF x) as [[|] | [|] | | [|] m e]; reflexivity.
Qed.

Lemma float_div_nan_l (x : float) : PrimFloat.div nan x = nan.
Proof.
  apply Prim2SF_inj. rewrite FloatAxioms.div_spec, Prim2SF_nan. reflexivity.
Qed.

(** X15: in binary64, on a map of the expected shape, a NaN coolant
    temperature or a NaN measured AFR is not detected: [getFinalAFR]
    returns NaN and [computePulseWidth] returns a NaN pulse width, with no
    error. *)
Theorem X15_nan_reading_propagates
        (c : FuelController float) (st : EngineState float) :
  wf_map (fuelMap c) = true ->
  small (rpm st) = true -> small (map st) = true ->
  coolantTempC st = nan \/ measuredAFR st = nan ->
  getFinalAFR (fuelMap c) (rpm st) (map st) (coolantTempC st) (measuredAFR st)
  = Ok nan /\
  computePulseWidth c st = Ok nan.
Proof.
  intros Hwf Hrpm Hload Hnan.
  destruct (targetAFR_value (fuelMap c) (rpm st) (map st) Hwf Hrpm Hload)
    as (r & l & _ & _ & Hbase).
  set (base := bilinear (fuelMap c) (rpm st) (map st) r l) in Hbase.
  assert (Hfinal : getFinalAFR (fuelMap c) (rpm st) (map st)
                     (coolantTempC st) (measuredAFR st) = Ok nan).
  { unfold getFinalAFR. rewrite Hbase. cbn [bind]. f_equal.
    destruct Hnan as [-> | ->].
    - assert (Hcold : applyColdStartEnrichment base nan = nan).
      { unfold applyColdStartEnrichment.
        change (dge nan (dlit 90.0)) with false. cbv iota zeta.
        change (dsub (dlit 1.3) (dmul (ddiv nan (dlit 90.0)) (dlit 0.3)))
          with nan.
        apply float_mul_nan_r. }
      rewrite Hcold. unfold applyClosedLoopCorrection. cbv zeta.
      apply float_mul_nan_l.
    - unfold applyClosedLoopCorrection. cbv zeta.
      cbn [dsub dmul Binary64Ops]. rewrite float_sub_nan_r.
      change (PrimFloat.sub (dlit 1.0) (PrimFloat.mul (dlit 0.1) nan))
        with nan.
      apply float_mul_nan_r. }
  split; [exact Hfinal |].
  rewrite (computePulseWidth_divides c st nan Hfinal). f_equal.
  cbn [ddiv Binary64Ops]. rewrite float_div_nan_r. apply float_div_nan_l.
Qed.

Lemma X15_nan_reading_propagates_witness :
  getFinalAFR (@main_map float _) 3500 80 nan (dlit 14.0) = Ok nan /\
  computePulseWidth main_controller nan_coolant_state = Ok nan.
Proof.
  apply (X15_nan_reading_propagates main_controller nan_coolant_state);
    [reflexivity | reflexivity | reflexivity | left; reflexivity].
Defined.
